(** * scvelo.plotting.velocity: gene selection, panel layout and
      stochastic overlay of the phase/velocity plot

    A shallow embedding of [velocity] from [scvelo/plotting/velocity.py].
    The function is embedded statement by statement. The matplotlib figure
    it draws on is an explicit state, a Python exception is an error result
    that leaves what was drawn before it, and numpy arithmetic on array
    elements goes through an interface of operations with two instances,
    exact rationals and IEEE binary64.

    The collaborators of scvelo ([scatter], [rank_velocity_genes],
    [second_order_moments], [default_basis], [get_basis],
    [get_figure_params], [savefig_or_show]) are taken to return once they
    are entered; a call to [scatter] or [pl.plot] is recorded with the grid
    cell it draws in. The primitives of numpy, pandas and matplotlib raise
    where the libraries do: indexing, reductions of empty arrays, arithmetic
    of an array with a pandas Series of another length, a figure of negative
    size, a grid without rows or columns, a keyword passed twice.

    Arguments that are only handed through to [scatter] (basis, color,
    color_map, colorbar, perc, alpha, size, fontsize, legend_fontsize, dpi,
    show, save) are not carried; [ax] and [figsize] are taken at their
    default [None], so that line 104 makes a figure of the default size
    scaled by the grid. *)

From stdpp Require Import base option list strings gmap.
From Stdlib Require Import ZArith QArith Qminmax Lia.
From Stdlib Require PrimFloat Uint63.

Set Warnings "-clear-no-such-hyp".

Local Open Scope string_scope.
Local Open Scope Z_scope.
Local Open Scope list_scope.

(** ** Python values *)

(** An argument documented as [`str` or list of `str`], default [None]. *)
Inductive PyArg : Type :=
  | PyNone
  | PyStr (s : string)
  | PyList (l : list string).

#[global] Instance PyArg_eq_dec : EqDecision PyArg.
Proof. solve_decision. Defined.

(** The exceptions that [velocity] and the numpy / matplotlib primitives it
    calls can raise. *)
Inductive PyError : Type :=
  | ValueError (msg : string)
  | IndexError
  | KeyError (key : string)
  | TypeError
  | AttributeError
  | ZeroDivisionError
  | OverflowError.

(** Python's [ArithmeticError] is the base class of [ZeroDivisionError],
    [OverflowError] and [FloatingPointError]. *)
Definition is_ArithmeticError (e : PyError) : bool :=
  match e with
  | ZeroDivisionError | OverflowError => true
  | _ => false
  end.

Inductive result (A : Type) : Type :=
  | Ok (a : A)
  | Raise (e : PyError).
Arguments Ok {A} a.
Arguments Raise {A} e.

#[global] Instance result_ret : MRet result := λ A a, Ok a.
#[global] Instance result_bind : MBind result := λ A B f r,
  match r with
  | Ok a => f a
  | Raise e => Raise e
  end.
#[global] Instance result_fmap : FMap result := λ A B f r,
  match r with
  | Ok a => Ok (f a)
  | Raise e => Raise e
  end.

(** Iterating a Python string yields its characters as one-character
    strings; iterating a list yields its items; [None] is not iterable. *)
Fixpoint chars (s : string) : list string :=
  match s with
  | EmptyString => []
  | String a s' => String a EmptyString :: chars s'
  end.

Definition iterate (a : PyArg) : result (list string) :=
  match a with
  | PyNone => Raise TypeError
  | PyStr s => Ok (chars s)
  | PyList l => Ok l
  end.

(** [g in group] on two Python strings: substring containment. *)
Fixpoint startswith (p s : string) : bool :=
  match p, s with
  | EmptyString, _ => true
  | String a p', String b s' => if Ascii.eqb a b then startswith p' s' else false
  | String _ _, EmptyString => false
  end.

Fixpoint str_in (g s : string) : bool :=
  startswith g s ||
  match s with
  | EmptyString => false
  | String _ s' => str_in g s'
  end.

(** ** pandas.unique

    [pd.unique] walks the values once with a hash table of the values seen
    so far and keeps a value the first time it meets it. *)
Fixpoint unique_from (seen : gset string) (l : list string) : list string :=
  match l with
  | [] => []
  | x :: l' =>
      if decide (x ∈ seen) then unique_from seen l'
      else x :: unique_from ({[x]} ∪ seen) l'
  end.

Definition unique (l : list string) : list string := unique_from ∅ l.

(** The specification's words for the same step: ``deduplicated, preserving
    first-occurrence order''. Each value is kept where it first occurs and
    struck from the rest. *)
Fixpoint stable_dedup (l : list string) : list string :=
  match l with
  | [] => []
  | x :: l' => x :: filter (λ y, y ≠ x) (stable_dedup l')
  end.

(** ** numpy indexing of the ranking table *)

(** [a[:, 0]] on a two-dimensional array given by its rows. An empty list
    converts to a one-dimensional array, which has no second axis; an array
    without columns has no column 0. *)
Definition column0 (a : list (list string)) : result (list string) :=
  match a with
  | [] => Raise IndexError
  | _ => mapM (λ row, match row with
                      | [] => Raise IndexError
                      | x :: _ => Ok x
                      end) a
  end.

(** Rows of [a] picked by a boolean mask of the same length. *)
Fixpoint mask_rows {A} (idx : list bool) (a : list A) : list A :=
  match idx, a with
  | b :: idx', r :: a' => if b then r :: mask_rows idx' a' else mask_rows idx' a'
  | _, _ => []
  end.

(** [a[idx, :k]]: boolean indexing of axis 0 raises [IndexError] when the
    mask length differs from the number of rows. *)
Definition index_mask_upto (a : list (list string)) (idx : list bool) (k : nat)
  : result (list (list string)) :=
  if decide (length idx = length a) then Ok (take k <$> mask_rows idx a)
  else Raise IndexError.

(** [np.hstack] of a two-dimensional array concatenates its rows; it needs
    at least one of them. *)
Definition hstack (a : list (list string)) : result (list string) :=
  match a with
  | [] => Raise (ValueError "need at least one array to concatenate")
  | _ => Ok (concat a)
  end.

(** [idx.sum()] of a boolean array. *)
Definition mask_sum (idx : list bool) : nat := length (filter (λ b, b = true) idx).

(** [int(10 / idx.sum())]. The divisor is a numpy scalar, so a zero does not
    raise at the division: the quotient is the float [inf], and [int(inf)]
    raises [OverflowError]. Otherwise the float quotient of two small
    integers truncates to the integer quotient. *)
Definition int_10_div (m : nat) : result nat :=
  match m with
  | O => Raise OverflowError
  | _ => Ok (10 `div` m)%nat
  end.

(** ** Arithmetic on array elements

    The layers hold floating-point numbers and numpy computes on them
    elementwise. The embedding takes the element type and its operations
    as an interface, so that every statement below holds for whatever
    arithmetic stands behind it. *)
Class Arith (num : Type) : Type := {
  of_int : Z → num;            (* a Python integer literal among floats *)
  lit_1_02 : num;              (* the literal 1.02 *)
  add : num → num → num;
  sub : num → num → num;
  mul : num → num → num;
  div : num → num → num;
  num_min : num → num → num;
  num_max : num → num → num
}.

(** Exact rational arithmetic. *)
#[global] Instance Q_Arith : Arith Q := {
  of_int := inject_Z;
  lit_1_02 := (51 # 50)%Q;
  add := Qplus;
  sub := Qminus;
  mul := Qmult;
  div := Qdiv;
  num_min := Qmin;
  num_max := Qmax
}.

(** IEEE 754 binary64, numpy's [float64]. An integer literal converts
    exactly, [1.02] is the correctly rounded quotient of 102 by 100, and
    [np.min], [np.max] hand a NaN on. *)
Definition float_of_int (z : Z) : PrimFloat.float :=
  match z with
  | Z0 => PrimFloat.zero
  | Zpos _ => PrimFloat.of_uint63 (Uint63.of_Z z)
  | Zneg p => PrimFloat.opp (PrimFloat.of_uint63 (Uint63.of_Z (Zpos p)))
  end.

Definition float_min (a b : PrimFloat.float) : PrimFloat.float :=
  if PrimFloat.is_nan a then a
  else if PrimFloat.is_nan b then b
  else if PrimFloat.ltb b a then b else a.

Definition float_max (a b : PrimFloat.float) : PrimFloat.float :=
  if PrimFloat.is_nan a then a
  else if PrimFloat.is_nan b then b
  else if PrimFloat.ltb a b then b else a.

#[global] Instance binary64_Arith : Arith PrimFloat.float := {
  of_int := float_of_int;
  lit_1_02 := PrimFloat.div (float_of_int 102) (float_of_int 100);
  add := PrimFloat.add;
  sub := PrimFloat.sub;
  mul := PrimFloat.mul;
  div := PrimFloat.div;
  num_min := float_min;
  num_max := float_max
}.

(** ** The annotated data matrix *)

(** A per-cell annotation column; only a categorical one has [.cat]. *)
Inductive ObsColumn : Type :=
  | Categorical (categories : list string)
  | NotCategorical.

(** [adata.uns['rank_velocity_genes']]: the grouping key it was computed
    for ([params.groupby]) and the two-dimensional array
    [np.array(names.tolist())] as the list of its rows, all of one length. *)
Record Ranking : Type := {
  rank_groupby : string;
  rank_names : list (list string)
}.

Module AnnData.
Record t (num : Type) : Type := {
  var_names : list string;                        (* the gene axis *)
  n_obs : nat;                                    (* number of cells *)
  obs : gmap string ObsColumn;                    (* per-cell annotations *)
  layers : list (string * (string → nat → num));  (* layer ↦ gene ↦ cell ↦ value *)
  var : gmap string (string → num);               (* per-gene annotations *)
  uns_rank_velocity_genes : option Ranking
}.
Arguments var_names {num} _.
Arguments n_obs {num} _.
Arguments obs {num} _.
Arguments layers {num} _.
Arguments var {num} _.
Arguments uns_rank_velocity_genes {num} _.
End AnnData.

(** [adata.layers.keys()], in insertion order. *)
Definition layer_keys {num} (adata : AnnData.t num) : list string :=
  fst <$> AnnData.layers adata.

(** [adata.layers[key]] *)
Fixpoint alist_get {V} (key : string) (l : list (string * V)) : option V :=
  match l with
  | [] => None
  | (k, v) :: l' => if decide (k = key) then Some v else alist_get key l'
  end.

(** ** The call *)

(** The dictionary [**kwargs]: the keywords of the call that are not
    parameters of [velocity]. The function stores axis labels in it and
    hands it on to [scatter]; it never reads a value, so values are carried
    as text. The dictionary is one object for the whole call: what one
    iteration stores in it the next one finds. *)
Abbreviation Kwargs := (gmap string string).

(** The arguments of [velocity] that decide selection, layout and overlay,
    under their names in the signature. *)
Module Args.
Record t : Type := {
  var_names : PyArg;
  vkey : string;
  mode : PyArg;
  fits : PyArg;
  layers : PyArg;
  groupby : PyArg;
  groups : PyArg;
  use_raw : bool;
  legend_loc : string;
  ncols : option Z;
  kwargs : Kwargs
}.

(** The defaults of the signature (line 14-17). *)
Definition default : t := {|
  var_names := PyNone;
  vkey := "velocity";
  mode := PyNone;
  fits := PyList ["velocity"; "dynamics"];
  layers := PyStr "all";
  groupby := PyNone;
  groups := PyNone;
  use_raw := false;
  legend_loc := "none";
  ncols := None;
  kwargs := ∅
|}.
End Args.

Section Velocity.
Context {num : Type} `{Arith num}.

(** Modelled from the spec: [rank_velocity_genes], imported from
    [scvelo/tools/rank_velocity_genes.py] (section 6, [rank]). It
    ``produces, per group, an ordered list of candidate genes'' and stores
    it on the dataset, so its result is taken as the [Ranking] it stores,
    row [i] of [rank_names] being the ordered candidates of group [i]. *)
Variable rank_velocity_genes : AnnData.t num → string → nat → string → Ranking.

(** Modelled from the spec: [second_order_moments], imported from
    [scvelo/preprocessing/moments.py] (section 6, [moments]). It returns the
    two second-order-moment layers of a one-gene slice; flattened, each has
    one value per cell. *)
Variable second_order_moments : AnnData.t num → string → (nat → num) * (nat → num).

(** *** Gene selection (lines 74-88) *)

(** [isinstance(groupby, str) and groupby in adata.obs.keys()] *)
Definition valid_groupby (adata : AnnData.t num) (groupby : PyArg)
  : option (string * ObsColumn) :=
  match groupby with
  | PyStr key => (λ col, (key, col)) <$> AnnData.obs adata !! key
  | _ => None
  end.

(** Lines 75-77: the ranking is recomputed unless one is cached for this
    very grouping key. *)
Definition ranking (adata : AnnData.t num) (vkey groupby : string) : Ranking :=
  match AnnData.uns_rank_velocity_genes adata with
  | Some r =>
      if decide (rank_groupby r ≠ groupby)
      then rank_velocity_genes adata vkey 10%nat groupby
      else r
  | None => rank_velocity_genes adata vkey 10%nat groupby
  end.

(** Line 82: one boolean per category, true when some requested token
    occurs in the category's label. *)
Definition group_mask (groups categories : list string) : list bool :=
  (λ group, existsb (λ g, str_in g group) groups) <$> categories.

(** Lines 74-87: the value of [var_names] before the final [pd.unique]. *)
Definition var_names_raw (adata : AnnData.t num) (vkey : string)
    (var_names groupby groups : PyArg) : result (list string) :=
  match valid_groupby adata groupby with
  | Some (key, col) =>
      let names := rank_names (ranking adata vkey key) in
      match groups with
      | PyNone => column0 names
      | _ =>
          groups ← match groups with
                   | PyStr g => Ok [g]
                   | _ => iterate groups
                   end;
          categories ← match col with
                       | Categorical c => Ok c
                       | NotCategorical => Raise AttributeError
                       end;
          let idx := group_mask groups categories in
          k ← int_10_div (mask_sum idx);
          rows ← index_mask_upto names idx k;
          hstack rows
      end
  | None =>
      match var_names with
      | PyNone => Raise (ValueError "No var_names or groups specified.")
      | PyStr s => Ok [s]
      | PyList l => Ok (filter (λ var, var ∈ AnnData.var_names adata) l)
      end
  end.

(** Line 88 *)
Definition select_var_names (adata : AnnData.t num) (vkey : string)
    (var_names groupby groups : PyArg) : result (list string) :=
  unique <$> var_names_raw adata vkey var_names groupby groups.

(** *** Layers and fits (lines 90-96) *)

(** Line 90 *)
Definition abundance_keys (adata : AnnData.t num) (use_raw : bool) : string * string :=
  if use_raw || negb (bool_decide ("Ms" ∈ layer_keys adata))
  then ("spliced", "unspliced")
  else ("Ms", "Mu").

(** Lines 91-92 *)
Definition resolve_layers (adata : AnnData.t num) (vkey skey : string) (layers : PyArg)
  : result (list string) :=
  layers ← (if decide (layers = PyStr "all") then Ok [vkey; skey] else iterate layers);
  mret (filter (λ layer, layer ∈ layer_keys adata ∨ layer = "X") layers).

(** [key in adata.var.keys()] *)
Definition in_var_keys (adata : AnnData.t num) (key : string) : Prop :=
  is_Some (AnnData.var adata !! key).

(** Lines 94-95 *)
Definition resolve_fits (adata : AnnData.t num) (fits : PyArg) : result (list string) :=
  fits ← (if decide (fits = PyStr "all") then Ok (layer_keys adata) else iterate fits);
  mret (filter (λ fit, fit = "dynamics" ∨ in_var_keys adata (fit +:+ "_gamma")) fits
        ++ ["dynamics"]).

(** Line 96 *)
Definition stochastic_fits (adata : AnnData.t num) (fits : list string) : list string :=
  filter (λ fit, "variance_" +:+ fit ∈ layer_keys adata) fits.

(** *** Layout (lines 98-101) *)

(** [mode == 'stochastic'] as the integer Python multiplies by 2. *)
Definition is_stochastic (mode : PyArg) : bool := bool_decide (mode = PyStr "stochastic").

(** Line 98 *)
Definition nplts (layers : list string) (mode : PyArg) : Z :=
  1 + Z.of_nat (length layers) + Z.b2z (is_stochastic mode) * 2.

(** [int(np.ceil(a / b))] for integers [a], [b ≠ 0]: the ceiling of the
    quotient. The float quotient is exact enough for the ceiling as long as
    the gene count stays below 2^52. *)
Definition ceil_div (a b : Z) : Z := - ((- a) `div` b).

(** Lines 99-101: [(nrows, ncols)] as handed to [GridSpec]. *)
Definition grid_shape (n_var : nat) (nplts : Z) (ncols : option Z) : result (Z * Z) :=
  let ncols := default 1 ncols in
  if decide (ncols = 0) then Raise ZeroDivisionError
  else Ok (ceil_div (Z.of_nat n_var) ncols, ncols * nplts).

(** *** Fit parameters (lines 144-145, 155-157) *)

(** What a parameter is bound to. [_adata.var[key]] on the one-gene slice
    is a pandas Series of one element, labelled by the gene; the fallback is
    a plain number, and so is, for broadcasting, the one-element array that
    [.values] takes out of the Series. *)
Inductive Operand : Type :=
  | Scalar (x : num)
  | Series (x : num).

Definition operand_value (o : Operand) : num :=
  match o with
  | Scalar x | Series x => x
  end.

(** Lines 144-145:
    [_adata.var[key] if key in adata.var.keys() else fallback]. *)
Definition var_series_or (adata : AnnData.t num) (key var : string) (fallback : Z)
  : Operand :=
  match AnnData.var adata !! key with
  | Some column => Series (column var)
  | None => Scalar (of_int fallback)
  end.

(** Lines 155-157:
    [_adata.var[key].values if key in adata.var.keys() else fallback]. *)
Definition var_or (adata : AnnData.t num) (key var : string) (fallback : Z) : num :=
  match AnnData.var adata !! key with
  | Some column => column var
  | None => of_int fallback
  end.

(** [offset] and [beta] of lines 144-145. *)
Definition fit_offset (adata : AnnData.t num) (fit var : string) : Operand :=
  var_series_or adata (fit +:+ "_offset") var 0.
Definition fit_beta (adata : AnnData.t num) (fit var : string) : Operand :=
  var_series_or adata (fit +:+ "_beta") var 1.

(** [gamma], [beta] and [offset2] of lines 155-157. *)
Definition fit_gamma (adata : AnnData.t num) (fit var : string) : num :=
  var_or adata (fit +:+ "_gamma") var 1.
Definition fit_beta_values (adata : AnnData.t num) (fit var : string) : num :=
  var_or adata (fit +:+ "_beta") var 1.
Definition fit_offset2 (adata : AnnData.t num) (fit var : string) : num :=
  var_or adata (fit +:+ "_offset2") var 0.

(** *** numpy on one-dimensional float arrays *)

(** [np.min], [np.max]: a zero-size array has no minimum. *)
Definition np_min (x : list num) : result num :=
  match x with
  | [] => Raise (ValueError "zero-size array to reduction operation minimum")
  | a :: x' => Ok (foldl num_min a x')
  end.

Definition np_max (x : list num) : result num :=
  match x with
  | [] => Raise (ValueError "zero-size array to reduction operation maximum")
  | a :: x' => Ok (foldl num_max a x')
  end.

(** [np.linspace(start, stop)]: 50 samples, [arange(50) * step + start] with
    [step = (stop - start) / 49], the last one overwritten by [stop]. *)
Definition linspace (start stop : num) : list num :=
  let step := div (sub stop start) (of_int 49) in
  ((λ i : nat, add (mul (of_int (Z.of_nat i)) step) start) <$> seq 0 49) ++ [stop].

(** Lines 146-147, one cell at a time. [s**2] is computed as [s * s]. *)
Definition corrected_x (s ss : num) : num :=
  sub (mul (of_int 2) (sub ss (mul s s))) s.

Definition corrected_y (s u us offset beta : num) : num :=
  add (add (mul (of_int 2) (sub us (mul u s))) u)
      (div (mul (mul (of_int 2) s) offset) beta).

(** [array op operand], elementwise. With a Series on the right numpy hands
    the operation to pandas, which computes on the values and labels the
    result by the index of the Series: an array of another length than the
    Series raises [ValueError]. *)
Definition broadcast (op : num → num → num) (a : list num) (o : Operand)
  : result (list num) :=
  match o with
  | Scalar x => Ok ((λ ai, op ai x) <$> a)
  | Series x =>
      if decide (length a = 1%nat) then Ok ((λ ai, op ai x) <$> a)
      else Raise (ValueError "Length of values does not match length of index")
  end.

(** Line 159: [gamma / beta * xnew + offset2 / beta] *)
Definition fit_line (gamma beta offset2 : num) (xnew : list num) : list num :=
  (λ x, add (mul (div gamma beta) x) (div offset2 beta)) <$> xnew.

(** *** The figure *)

(** What has been drawn: the calls to the [scatter] collaborator with the
    grid cell ([ax]) they target, and the lines drawn with [pl.plot] on the
    axes that are current at that moment. *)
Inductive Event : Type :=
  | PhasePortrait (ax : Z) (var : string) (vkey : list string)
      (legend_loc_lines : string) (kwargs : Kwargs)
  | Embedding (ax : Z) (var layer title : string) (kwargs : Kwargs)
  | CorrectedScatter (ax : Z) (var : string) (x y : list num) (kwargs : Kwargs)
  | DashedLine (ax : option Z) (x y : list num).

(** The state the loop works on: the grid [gs] as [(nrows, ncols)],
    pyplot's current axes, the [kwargs] dictionary, and the drawing so far. *)
Record Figure : Type := {
  gs : Z * Z;
  gca : option Z;
  kwargs : Kwargs;
  drawn : list Event
}.

(** A statement: it changes the figure and returns or raises. What was
    drawn before an exception stays drawn. *)
Definition M (A : Type) : Type := Figure → Figure * result A.

#[global] Instance M_ret : MRet M := λ A a fig, (fig, Ok a).
#[global] Instance M_bind : MBind M := λ A B f m fig,
  match m fig with
  | (fig', Ok a) => f a fig'
  | (fig', Raise e) => (fig', Raise e)
  end.

Definition lift {A} (r : result A) : M A := λ fig, (fig, r).

(** The number of cells of the grid, [nrows * ncols]. *)
Definition cells_of_grid (fig : Figure) : Z := fst (gs fig) * snd (gs fig).

(** [pl.subplot(gs[k])]: a negative [k] counts from the end, an index outside
    the grid raises [IndexError]; the new axes become the current ones. *)
Definition subplot (k : Z) : M Z := λ fig,
  let total := cells_of_grid fig in
  let k := if decide (k < 0) then k + total else k in
  if decide (0 ≤ k < total)
  then ({| gs := gs fig; gca := Some k; kwargs := kwargs fig; drawn := drawn fig |}, Ok k)
  else (fig, Raise IndexError).

Definition draw (e : Event) : M unit := λ fig,
  ({| gs := gs fig; gca := gca fig; kwargs := kwargs fig; drawn := drawn fig ++ [e] |}, Ok ()).

(** The keywords that the three calls of [scatter] pass by name: the phase
    portrait (lines 122-124), a layer panel (lines 134-136) and the
    stochastic panel (lines 150-151). *)
Definition portrait_keywords : list string :=
  ["basis"; "color"; "colorbar"; "color_map"; "perc"; "frameon"; "title"; "size";
   "use_raw"; "alpha"; "fontsize"; "vkey"; "legend_fontsize"; "show"; "ax"; "save";
   "legend_loc_lines"].

Definition layer_keywords : list string :=
  ["basis"; "color"; "layer"; "colorbar"; "title"; "perc"; "color_map"; "use_raw";
   "fontsize"; "size"; "alpha"; "frameon"; "show"; "ax"; "save"].

Definition stochastic_keywords : list string :=
  ["x"; "y"; "color"; "colorbar"; "title"; "fontsize"; "size"; "perc"; "use_raw";
   "frameon"; "ax"; "save"; "show"].

(** Whether the dictionary holds one of the keywords passed by name. *)
Definition collides (explicit : list string) (kw : Kwargs) : bool :=
  existsb (λ key, bool_decide (is_Some (kw !! key))) explicit.

(** [scatter(adata, key=..., **kwargs)] reads the dictionary as it is at the
    call. A keyword that is passed by name and is in the dictionary as well
    raises [TypeError] before [scatter] is entered. *)
Definition scatter (explicit : list string) (e : Kwargs → Event) : M unit := λ fig,
  if collides explicit (kwargs fig) then (fig, Raise TypeError)
  else draw (e (kwargs fig)) fig.

(** [pl.plot(x, y, c='k', linestyle='--')] *)
Definition plot (x y : list num) : M unit := λ fig, draw (DashedLine (gca fig) x y) fig.

Definition set_kwargs (kw : Kwargs) : M unit := λ fig,
  ({| gs := gs fig; gca := gca fig; kwargs := kw; drawn := drawn fig |}, Ok ()).

(** [if key not in kwargs: kwargs[key] = value] *)
Definition setdefault (key value : string) (kw : Kwargs) : Kwargs :=
  if decide (is_Some (kw !! key)) then kw else <[key := value]> kw.

(** Lines 120-121 *)
Definition default_labels (kw : Kwargs) : Kwargs :=
  setdefault "ylabel" "unspliced" (setdefault "xlabel" "spliced" kw).

(** Lines 148-149 *)
Definition stochastic_labels (kw : Kwargs) : Kwargs :=
  <["ylabel" := "2 $\Sigma_{us} + \langle u \rangle$"]>
    (<["xlabel" := "2 $\Sigma_s - \langle s \rangle$"]> kw).

(** [for i, x in enumerate(l, start=i): body] *)
Fixpoint for_enumerate {A} (body : nat → A → M unit) (i : nat) (l : list A) : M unit :=
  match l with
  | [] => mret ()
  | x :: l' => body i x;; for_enumerate body (S i) l'
  end.

(** *** The loop body (lines 111-159) *)

(** [_adata.layers[key]] of the slice [adata[:, var]], one value per cell. *)
Definition layer_of (adata : AnnData.t num) (key var : string) : result (nat → num) :=
  match alist_get key (AnnData.layers adata) with
  | Some layer => Ok (layer var)
  | None => Raise (KeyError key)
  end.

(** The cells in order, [0 .. n_obs - 1]. *)
Definition cells (adata : AnnData.t num) : list nat := seq 0 (AnnData.n_obs adata).

(** Line 124: only the last gene's portrait carries the legend. *)
Definition legend_loc_lines (a : Args.t) (n_var v : nat) : string :=
  if decide (Z.of_nat v < Z.of_nat n_var - 1) then "none" else Args.legend_loc a.

(** Line 129 *)
Definition title_of (skey layer : string) : string :=
  if bool_decide (layer ∈ ["X"; skey]) then "expression" else layer.

(** Lines 127-136 *)
Definition layer_panels (skey : string) (layers : list string) (nplts : Z)
    (v : nat) (var : string) : M unit :=
  for_enumerate (λ l layer,
    ax ← subplot (Z.of_nat v * nplts + Z.of_nat l + 1);
    scatter layer_keywords (Embedding ax var layer (title_of skey layer))) 0 layers.

(** Line 146 over all cells. *)
Definition corrected_xs (adata : AnnData.t num) (s ss : nat → num) : list num :=
  (λ i, corrected_x (s i) (ss i)) <$> cells adata.

(** Line 147 over all cells, [2 * (us - u * s) + u + 2 * s * offset / beta]
    in the order Python evaluates it: [offset] and [beta] are operands of an
    array of one value per cell. *)
Definition corrected_ys (adata : AnnData.t num) (s u us : nat → num)
    (offset beta : Operand) : result (list num) :=
  t ← broadcast mul ((λ i, mul (of_int 2) (s i)) <$> cells adata) offset;
  t ← broadcast div t beta;
  mret (zip_with add
          ((λ i, add (mul (of_int 2) (sub (us i) (mul (u i) (s i)))) (u i)) <$> cells adata)
          t).

(** What line 147 computes when it does not raise. *)
Definition corrected_ys_values (adata : AnnData.t num) (s u us : nat → num)
    (offset beta : num) : list num :=
  (λ i, corrected_y (s i) (u i) (us i) offset beta) <$> cells adata.

(** Lines 155-159 for one fit. *)
Definition fit_line_of (adata : AnnData.t num) (var : string) (xnew : list num)
    (fit : string) : list num :=
  let gamma := fit_gamma adata fit var in
  let beta := fit_beta_values adata fit var in
  let offset2 := fit_offset2 adata fit var in
  fit_line gamma beta offset2 xnew.

(** Lines 138-159 *)
Definition stochastic_panel (adata : AnnData.t num) (s u : nat → num)
    (layers stochastic_fits : list string) (nplts : Z) (v : nat) (var : string) : M unit :=
  let '(ss, us) := second_order_moments adata var in
  fit ← lift (match stochastic_fits with
              | fit :: _ => Ok fit
              | [] => Raise IndexError
              end);
  ax ← subplot (Z.of_nat v * nplts + Z.of_nat (length layers) + 1);
  let offset := fit_offset adata fit var in
  let beta := fit_beta adata fit var in
  let x := corrected_xs adata s ss in
  y ← lift (corrected_ys adata s u us offset beta);
  (λ fig, set_kwargs (stochastic_labels (kwargs fig)) fig);;
  scatter stochastic_keywords (CorrectedScatter ax var x y);;
  lo ← lift (np_min x);
  hi ← lift (np_max x);
  let xnew := linspace lo (mul hi lit_1_02) in
  for_enumerate (λ _ fit, plot xnew (fit_line_of adata var xnew fit)) 0 stochastic_fits.

(** Lines 111-159 for the gene [var] at index [v] of [n_var] selected genes.
    [adata[:, var]] raises [KeyError] for a name that is not on the gene axis. *)
Definition gene_panels (adata : AnnData.t num) (a : Args.t) (skey ukey : string)
    (layers fits stochastic_fits : list string) (nplts : Z) (n_var : nat)
    (v : nat) (var : string) : M unit :=
  lift (if decide (var ∈ AnnData.var_names adata) then Ok () else Raise (KeyError var));;
  s ← lift (layer_of adata skey var);
  u ← lift (layer_of adata ukey var);
  ax ← subplot (Z.of_nat v * nplts);
  (λ fig, set_kwargs (default_labels (kwargs fig)) fig);;
  scatter portrait_keywords (PhasePortrait ax var fits (legend_loc_lines a n_var v));;
  layer_panels skey layers nplts v var;;
  if is_stochastic (Args.mode a)
  then stochastic_panel adata s u layers stochastic_fits nplts v var
  else mret ().

(** *** The function (lines 71-162) *)

(** Line 72: [kwargs.pop('c', color)] and [kwargs.pop('cmap', color_map)]
    take the two short colour options out of the dictionary. *)
Definition pop_colors (kw : Kwargs) : Kwargs := delete "cmap" (delete "c" kw).

(** The figure of a call with the keywords [kw], after line 72 and before
    [GridSpec] exists. *)
Definition blank (kw : Kwargs) : Figure :=
  {| gs := (0, 0); gca := None; kwargs := pop_colors kw; drawn := [] |}.

(** Line 104: [pl.figure] with a size of [ncols / 2] by [nrows / 2] times
    the default size; matplotlib refuses a negative size. *)
Definition figure (nrows ncols : Z) : M unit := λ fig,
  if decide (nrows < 0 ∨ ncols < 0)
  then (fig, Raise (ValueError "figure size must be positive finite"))
  else (fig, Ok ()).

(** Line 105: a grid has at least one row and one column. *)
Definition GridSpec (nrows ncols : Z) : M unit := λ fig,
  if decide (nrows ≤ 0)
  then (fig, Raise (ValueError "Number of rows must be a positive integer"))
  else if decide (ncols ≤ 0)
  then (fig, Raise (ValueError "Number of columns must be a positive integer"))
  else ({| gs := (nrows, ncols); gca := gca fig; kwargs := kwargs fig; drawn := drawn fig |},
        Ok ()).

Definition velocity_stmts (adata : AnnData.t num) (a : Args.t) : M unit :=
  var_names ← lift (select_var_names adata (Args.vkey a)
                      (Args.var_names a) (Args.groupby a) (Args.groups a));
  let '(skey, ukey) := abundance_keys adata (Args.use_raw a) in
  layers ← lift (resolve_layers adata (Args.vkey a) skey (Args.layers a));
  fits ← lift (resolve_fits adata (Args.fits a));
  let stochastic_fits := stochastic_fits adata fits in
  let nplts := nplts layers (Args.mode a) in
  '(nrows, ncols) ← lift (grid_shape (length var_names) nplts (Args.ncols a));
  figure nrows ncols;;
  GridSpec nrows ncols;;
  for_enumerate
    (gene_panels adata a skey ukey layers fits stochastic_fits nplts (length var_names))
    0 var_names.

(** The call: the final figure and the outcome. *)
Definition velocity (adata : AnnData.t num) (a : Args.t) : Figure * result unit :=
  velocity_stmts adata a (blank (Args.kwargs a)).

(** *** The drawing of a run in closed form

    What the loop leaves on the figure when no statement raises, written as
    plain lists; the lemmas below show that the loop computes them. *)

(** The sample points of line 153. *)
Definition xnew_of (x : list num) : list num :=
  match x with
  | [] => []
  | a :: x' => linspace (foldl num_min a x') (mul (foldl num_max a x') lit_1_02)
  end.

Definition layer_events (skey : string) (layers : list string) (nplts : Z)
    (kw : Kwargs) (v : nat) (var : string) (l0 : nat) : list Event :=
  imap (λ l layer,
    Embedding (Z.of_nat v * nplts + Z.of_nat (l0 + l) + 1) var layer (title_of skey layer) kw)
    layers.

(** The lines of one gene's stochastic panel (lines 153-159). *)
Definition stochastic_lines (adata : AnnData.t num) (s : nat → num)
    (layers stochastic_fits : list string) (nplts : Z) (v : nat) (var : string)
  : list Event :=
  let ax := Z.of_nat v * nplts + Z.of_nat (length layers) + 1 in
  let x := corrected_xs adata s (second_order_moments adata var).1 in
  (λ fit, DashedLine (Some ax) (xnew_of x) (fit_line_of adata var (xnew_of x) fit))
    <$> stochastic_fits.

Definition stochastic_events (adata : AnnData.t num) (s u : nat → num)
    (layers stochastic_fits : list string) (nplts : Z) (kw : Kwargs) (v : nat)
    (var : string) : list Event :=
  let ss := (second_order_moments adata var).1 in
  let us := (second_order_moments adata var).2 in
  let fit := default "" (head stochastic_fits) in
  let ax := Z.of_nat v * nplts + Z.of_nat (length layers) + 1 in
  let x := corrected_xs adata s ss in
  let y := corrected_ys_values adata s u us
             (operand_value (fit_offset adata fit var))
             (operand_value (fit_beta adata fit var)) in
  CorrectedScatter ax var x y (stochastic_labels kw)
  :: stochastic_lines adata s layers stochastic_fits nplts v var.

Definition gene_events (adata : AnnData.t num) (a : Args.t) (skey : string)
    (s u : string → nat → num) (layers fits stochastic_fits : list string)
    (nplts : Z) (n_var : nat) (kw : Kwargs) (v : nat) (var : string) : list Event :=
  PhasePortrait (Z.of_nat v * nplts) var fits (legend_loc_lines a n_var v) (default_labels kw)
  :: layer_events skey layers nplts (default_labels kw) v var 0
  ++ (if is_stochastic (Args.mode a)
      then stochastic_events adata (s var) (u var) layers stochastic_fits nplts
             (default_labels kw) v var
      else []).

(** The dictionary as one iteration leaves it to the next. *)
Definition kwargs_after (a : Args.t) (kw : Kwargs) : Kwargs :=
  if is_stochastic (Args.mode a) then stochastic_labels (default_labels kw)
  else default_labels kw.

Fixpoint loop_events (adata : AnnData.t num) (a : Args.t) (skey : string)
    (s u : string → nat → num) (layers fits stochastic_fits : list string)
    (nplts : Z) (n_var : nat) (kw : Kwargs) (v : nat) (var_names : list string)
  : list (list Event) :=
  match var_names with
  | [] => []
  | var :: rest =>
      gene_events adata a skey s u layers fits stochastic_fits nplts n_var kw v var
      :: loop_events adata a skey s u layers fits stochastic_fits nplts n_var
           (kwargs_after a kw) (S v) rest
  end.

(** In stochastic mode line 147 goes through when the first
    stochastic-capable fit has neither an offset nor a beta column, or when
    there is exactly one cell; there must be such a fit, and a cell for the
    minimum of line 153. *)
Definition stochastic_drawable (adata : AnnData.t num) (stochastic_fits : list string)
  : Prop :=
  AnnData.n_obs adata ≠ 0%nat
  ∧ ∃ fit rest,
      stochastic_fits = fit :: rest
      ∧ (AnnData.n_obs adata = 1%nat
         ∨ (¬ in_var_keys adata (fit +:+ "_offset")
            ∧ ¬ in_var_keys adata (fit +:+ "_beta"))).

(** What the phase portraits and the layer panels need: a selected gene,
    every selected gene on the gene axis, both abundance layers, and no
    caller keyword that these calls of [scatter] pass by name. *)
Definition panels_drawable (adata : AnnData.t num) (a : Args.t) (skey ukey : string)
    (s u : string → nat → num) (var_names : list string) : Prop :=
  var_names ≠ []
  ∧ Forall (λ var, var ∈ AnnData.var_names adata) var_names
  ∧ alist_get skey (AnnData.layers adata) = Some s
  ∧ alist_get ukey (AnnData.layers adata) = Some u
  ∧ collides (portrait_keywords ++ layer_keywords) (Args.kwargs a) = false.

(** What a run needs to reach the end: the above, and in stochastic mode no
    colliding keyword for the stochastic panel either and a dataset on which
    the corrected coordinates can be computed. *)
Definition drawable (adata : AnnData.t num) (a : Args.t) (skey ukey : string)
    (s u : string → nat → num) (var_names stochastic_fits : list string) : Prop :=
  panels_drawable adata a skey ukey s u var_names
  ∧ (is_stochastic (Args.mode a) = true →
     collides stochastic_keywords (Args.kwargs a) = false
     ∧ stochastic_drawable adata stochastic_fits).

End Velocity.

Arguments Event : clear implicits.
Arguments Figure : clear implicits.




(** ** Projections of the drawing *)




(** The same call with another [var_names]. *)
Definition with_var_names (var_names : PyArg) (a : Args.t) : Args.t :=
  {| Args.var_names := var_names;
     Args.vkey := Args.vkey a;
     Args.mode := Args.mode a;
     Args.fits := Args.fits a;
     Args.layers := Args.layers a;
     Args.groupby := Args.groupby a;
     Args.groups := Args.groups a;
     Args.use_raw := Args.use_raw a;
     Args.legend_loc := Args.legend_loc a;
     Args.ncols := Args.ncols a;
     Args.kwargs := Args.kwargs a |}.

(** ** Relations between figures

    What a statement leaves as it found it, whether it returns or raises. *)

Section Relations.
Context {num : Type} `{Arith num}.

Definition keeps (R : Figure num → Figure num → Prop) {A} (m : M A) : Prop :=
  ∀ fig fig' r, m fig = (fig', r) → R fig fig'.

(** The keywords that collide with those of a call stay the same. *)
Definition same_collisions (explicit : list string) (fig fig' : Figure num) : Prop :=
  collides explicit (kwargs fig') = collides explicit (kwargs fig).

(** The function stores and removes no keyword that a call passes by name,
    so whether a call collides is decided by the caller's keywords. *)
Definition own_keys : list string := ["xlabel"; "ylabel"; "c"; "cmap"].

Definition passed_by_name (explicit : list string) : Prop :=
  Forall (λ key, key ∉ explicit) own_keys.


(** The drawing only grows, and only by events of a given kind. *)
Definition only_draws (Q : Event num → Prop) (fig fig' : Figure num) : Prop :=
  ∃ new, drawn fig' = drawn fig ++ new ∧ Forall Q new.

(** A layer panel of the gene [var] shows one of the resolved layers. *)
Definition panel_of (genes layers : list string) (e : Event num) : Prop :=
  match e with
  | Embedding _ var layer _ _ => var ∈ genes ∧ layer ∈ layers
  | _ => True
  end.

End Relations.

(** ** The specification's words for group matching

    A group matches when some requested token is a substring of its label. *)
Definition matches (tokens : list string) (label : string) : Prop :=
  ∃ g, g ∈ tokens ∧ ∃ p q, label = p +:+ g +:+ q.

(** The requested subset as a list of tokens: a single string stands for
    the list of that string. *)
Definition tokens_of (groups : PyArg) : list string :=
  match groups with
  | PyNone => []
  | PyStr g => [g]
  | PyList l => l
  end.

(** How often a fit name occurs in a list of fit names. *)
Definition occurrences (name : string) (l : list string) : nat :=
  length (filter (λ x, x = name) l).

(** ** Small datasets for concrete runs

    Two cells, every layer value and every second-order moment equal to 1,
    three groups of cells, and a ranking of six genes per group. *)
Definition demo_rank (adata : AnnData.t Q) (vkey : string) (n_genes : nat)
    (groupby : string) : Ranking :=
  {| rank_groupby := groupby;
     rank_names := [["B"; "A"; "C"; "D"; "E"; "F"];
                    ["B"; "C"; "A"; "F"; "E"; "D"];
                    ["C"; "A"; "B"; "D"; "F"; "E"]] |}.

Definition demo_moments (adata : AnnData.t Q) (var : string) : (nat → Q) * (nat → Q) :=
  (λ _, 1%Q, λ _, 1%Q).

Definition demo_adata (genes layer_names : list string) (var_columns : list (string * Q))
  : AnnData.t Q :=
  {| AnnData.var_names := genes;
     AnnData.n_obs := 2;
     AnnData.obs := {[ "clusters" := Categorical ["alpha"; "beta"; "gamma"] ]};
     AnnData.layers := (λ name, (name, λ _ _, 1%Q)) <$> layer_names;
     AnnData.var :=
       list_to_map ((λ kv : string * Q, (kv.1, λ _ : string, kv.2)) <$> var_columns);
     AnnData.uns_rank_velocity_genes := None |}.

(** Genes A, B, C with the layers of a deterministic velocity fit. *)
Definition abc_adata : AnnData.t Q :=
  demo_adata ["A"; "B"; "C"] ["spliced"; "unspliced"; "velocity"] [("velocity_gamma", 2%Q)].

(** Genes A to F after a stochastic velocity fit and a dynamical fit. *)
Definition stochastic_adata : AnnData.t Q :=
  demo_adata ["A"; "B"; "C"; "D"; "E"; "F"]
    ["spliced"; "unspliced"; "velocity"; "variance_velocity"; "variance_dynamics"]
    [("velocity_gamma", 2%Q); ("dynamics_beta", 4%Q); ("dynamics_offset2", 3%Q)].

(** Genes A, B, C with both abundance layers, a variance layer of the
    dynamical fit, and no fit parameter at all. *)
Definition bare_adata : AnnData.t Q :=
  demo_adata ["A"; "B"; "C"] ["spliced"; "unspliced"; "variance_dynamics"] [].

(** Genes A, B, C after a stochastic velocity fit that stored an offset. *)
Definition offset_adata : AnnData.t Q :=
  demo_adata ["A"; "B"; "C"] ["spliced"; "unspliced"; "velocity"; "variance_velocity"]
    [("velocity_gamma", 2%Q); ("velocity_offset", 1%Q)].

(** Genes A, B, C where the velocity fit stored an offset and only the
    dynamical fit has a variance layer. *)
Definition dynamical_adata : AnnData.t Q :=
  demo_adata ["A"; "B"; "C"] ["spliced"; "unspliced"; "velocity"; "variance_dynamics"]
    [("velocity_gamma", 2%Q); ("velocity_offset", 1%Q)].

(** [velocity(adata, var_names=var_names, mode=mode, ncols=ncols)] *)
Definition call (var_names mode : PyArg) (ncols : option Z) : Args.t :=
  {| Args.var_names := var_names;
     Args.vkey := Args.vkey Args.default;
     Args.mode := mode;
     Args.fits := Args.fits Args.default;
     Args.layers := Args.layers Args.default;
     Args.groupby := Args.groupby Args.default;
     Args.groups := Args.groups Args.default;
     Args.use_raw := Args.use_raw Args.default;
     Args.legend_loc := Args.legend_loc Args.default;
     Args.ncols := ncols;
     Args.kwargs := Args.kwargs Args.default |}.

(** [velocity(adata, groupby=groupby, groups=groups)] *)
Definition call_groups (groupby groups : PyArg) : Args.t :=
  {| Args.var_names := Args.var_names Args.default;
     Args.vkey := Args.vkey Args.default;
     Args.mode := Args.mode Args.default;
     Args.fits := Args.fits Args.default;
     Args.layers := Args.layers Args.default;
     Args.groupby := groupby;
     Args.groups := groups;
     Args.use_raw := Args.use_raw Args.default;
     Args.legend_loc := Args.legend_loc Args.default;
     Args.ncols := Args.ncols Args.default;
     Args.kwargs := Args.kwargs Args.default |}.

(** A ranking of two genes for each of twelve groups, and a dataset whose
    cells fall into twelve groups [g0 .. g11]. *)
Definition twelve : list string :=
  ["g0"; "g1"; "g2"; "g3"; "g4"; "g5"; "g6"; "g7"; "g8"; "g9"; "g10"; "g11"].

Definition wide_rank (adata : AnnData.t Q) (vkey : string) (n_genes : nat)
    (groupby : string) : Ranking :=
  {| rank_groupby := groupby; rank_names := (λ _, ["A"; "B"]) <$> twelve |}.

Definition twelve_groups_adata : AnnData.t Q :=
  {| AnnData.var_names := ["A"; "B"; "C"];
     AnnData.n_obs := 2;
     AnnData.obs := {[ "clusters" := Categorical twelve ]};
     AnnData.layers := (λ name, (name, λ _ _, 1%Q)) <$> ["spliced"; "unspliced"; "velocity"];
     AnnData.var := ∅;
     AnnData.uns_rank_velocity_genes := None |}.

(** [abc_adata] with a ranking cached for the key "clusters". *)
Definition cached_adata : AnnData.t Q :=
  {| AnnData.var_names := AnnData.var_names abc_adata;
     AnnData.n_obs := AnnData.n_obs abc_adata;
     AnnData.obs := AnnData.obs abc_adata;
     AnnData.layers := AnnData.layers abc_adata;
     AnnData.var := AnnData.var abc_adata;
     AnnData.uns_rank_velocity_genes :=
       Some {| rank_groupby := "clusters";
               rank_names := [["C"; "A"]; ["A"; "B"]; ["C"; "B"]] |} |}.

(** Smoothed layers [Ms] without [Mu]. *)
Definition half_smoothed_adata : AnnData.t Q :=
  demo_adata ["A"; "B"; "C"] ["spliced"; "unspliced"; "Ms"; "velocity"] [].


(** * Properties *)

(** ** Substring containment *)

Lemma app_String (a : Ascii.ascii) (s q : string) :
  String a s +:+ q = String a (s +:+ q).
Proof. reflexivity. Qed.

Lemma app_empty (q : string) : "" +:+ q = q.
Proof. reflexivity. Qed.

Lemma startswith_spec (p s : string) :
  startswith p s = true ↔ ∃ q, s = p +:+ q.
Proof.
  revert s. induction p as [|a p IH]; intros s; simpl.
  - split; [intros _; by exists s | done].
  - destruct s as [|b s].
    + split; [done | intros [q Hq]; discriminate].
    + destruct (Ascii.eqb_spec a b) as [->|Hab].
      * rewrite IH. split; intros [q Hq]; exists q;
          rewrite app_String in *; congruence.
      * split; [done | intros [q Hq]; rewrite app_String in Hq; congruence].
Qed.

Lemma str_in_spec (g s : string) :
  str_in g s = true ↔ ∃ p q, s = p +:+ g +:+ q.
Proof.
  induction s as [|b s IH]; simpl.
  - rewrite orb_false_r, startswith_spec. split.
    + intros [q Hq]. by exists "", q.
    + intros [p [q Hq]]. destruct p; [by exists q | discriminate].
  - rewrite orb_true_iff, startswith_spec, IH. split.
    + intros [[q Hq] | [p [q Hq]]].
      * by exists "", q.
      * exists (String b p), q. rewrite app_String. by rewrite Hq.
    + intros [p [q Hq]]. destruct p as [|c p].
      * left. by exists q.
      * right. exists p, q. rewrite app_String in Hq. congruence.
Qed.

(** ** pandas.unique keeps first occurrences *)

Lemma stable_dedup_elem_of (l : list string) (x : string) :
  x ∈ stable_dedup l ↔ x ∈ l.
Proof.
  induction l as [|y l IH]; simpl; [done|].
  rewrite !elem_of_cons, list_elem_of_filter, IH.
  destruct (decide (x = y)); naive_solver.
Qed.

Lemma stable_dedup_NoDup (l : list string) : NoDup (stable_dedup l).
Proof.
  induction l as [|y l IH]; simpl; [constructor|].
  apply NoDup_cons. split.
  - rewrite list_elem_of_filter. naive_solver.
  - by apply NoDup_filter.
Qed.

Lemma stable_dedup_sublist (l : list string) : stable_dedup l `sublist_of` l.
Proof.
  induction l as [|y l IH]; simpl; [done|].
  apply sublist_skip. etrans; [apply sublist_filter | done].
Qed.

(** The hash-table walk computes the first-occurrence deduplication of what
    has not been seen before. *)
Lemma unique_from_spec (seen : gset string) (l : list string) :
  unique_from seen l = filter (λ y, y ∉ seen) (stable_dedup l).
Proof.
  revert seen. induction l as [|x l IH]; intros seen; simpl; [done|].
  rewrite filter_cons. destruct (decide (x ∈ seen)) as [Hx|Hx].
  - rewrite decide_False by naive_solver.
    rewrite IH, list_filter_filter. apply list_filter_iff. set_solver.
  - rewrite decide_True by done. f_equal.
    rewrite IH, list_filter_filter. apply list_filter_iff. set_solver.
Qed.

Lemma unique_stable_dedup (l : list string) : unique l = stable_dedup l.
Proof.
  unfold unique. rewrite unique_from_spec.
  induction (stable_dedup l) as [|x l' IH]; [done|].
  rewrite filter_cons_True by set_solver. by rewrite IH.
Qed.

Lemma unique_NoDup (l : list string) : NoDup (unique l).
Proof. rewrite unique_stable_dedup. apply stable_dedup_NoDup. Qed.

Lemma unique_elem_of (l : list string) (x : string) : x ∈ unique l ↔ x ∈ l.
Proof. rewrite unique_stable_dedup. apply stable_dedup_elem_of. Qed.

Lemma unique_sublist (l : list string) : unique l `sublist_of` l.
Proof. rewrite unique_stable_dedup. apply stable_dedup_sublist. Qed.

(** ** Group matching *)

Lemma existsb_matches (tokens : list string) (label : string) :
  existsb (λ g, str_in g label) tokens = true ↔ matches tokens label.
Proof.
  unfold matches. rewrite existsb_exists. split.
  - intros [g [Hg Hin]]. exists g. by rewrite list_elem_of_In, <- str_in_spec.
  - intros [g [Hg Hin]]. exists g. by rewrite <- list_elem_of_In, str_in_spec.
Qed.

#[global] Instance matches_dec (tokens : list string) (label : string) :
  Decision (matches tokens label).
Proof.
  refine (cast_if (decide (existsb (λ g, str_in g label) tokens = true)));
    by rewrite <- existsb_matches.
Defined.

Lemma mask_sum_group_mask (tokens categories : list string) :
  mask_sum (group_mask tokens categories) = length (filter (matches tokens) categories).
Proof.
  unfold mask_sum, group_mask.
  induction categories as [|c cs IH]; [done|].
  rewrite fmap_cons, !filter_cons.
  destruct (decide (matches tokens c)) as [Hm|Hm].
  - rewrite decide_True by by apply existsb_matches. simpl. by rewrite IH.
  - rewrite decide_False; [done|]. by rewrite existsb_matches.
Qed.

Lemma mask_rows_group_mask (tokens categories : list string) (names : list (list string)) :
  mask_rows (group_mask tokens categories) names
  = snd <$> filter (λ gr, matches tokens gr.1) (zip categories names).
Proof.
  unfold group_mask. revert names.
  induction categories as [|c cs IH]; intros [|row names]; simpl; try done.
  rewrite filter_cons. simpl.
  destruct (decide (matches tokens c)) as [Hm|Hm].
  - apply existsb_matches in Hm as ->. simpl. by rewrite IH.
  - rewrite <- existsb_matches in Hm. apply not_true_is_false in Hm as ->. apply IH.
Qed.

Lemma length_filter_zip_fst (tokens categories : list string) (names : list (list string)) :
  length categories = length names →
  length (filter (λ gr : string * list string, matches tokens gr.1) (zip categories names))
  = length (filter (matches tokens) categories).
Proof.
  revert names. induction categories as [|c cs IH]; intros [|row names] Hlen;
    simpl in *; try done.
  rewrite !filter_cons. simpl. destruct (decide (matches tokens c)); simpl; auto.
Qed.

Lemma column0_heads (names : list (list string)) (tops : list string) :
  names ≠ [] →
  head <$> names = Some <$> tops →
  column0 names = Ok tops.
Proof.
  intros Hne Hheads. unfold column0. destruct names as [|r0 names0]; [done|].
  clear Hne. revert tops Hheads.
  generalize (r0 :: names0). clear r0 names0.
  intros names. induction names as [|row names IH]; intros [|top tops] Hheads; try done.
  injection Hheads as Hrow Hrest. destruct row as [|x row]; [done|].
  simpl in Hrow. injection Hrow as ->.
  change (mapM ?f (?r :: ?l)) with (y ← f r; k ← mapM f l; mret (y :: k)).
  simpl. by rewrite (IH tops Hrest).
Qed.

(** ** Gene selection *)

Lemma result_bind_Ok {A B} (a : A) (f : A → result B) : Ok a ≫= f = f a.
Proof. reflexivity. Qed.

Lemma int_10_div_pos (m : nat) : (1 ≤ m)%nat → int_10_div m = Ok (10 `div` m)%nat.
Proof. destruct m; [lia | done]. Qed.

Lemma hstack_nonempty (rows : list (list string)) :
  rows ≠ [] → hstack rows = Ok (concat rows).
Proof. by destruct rows. Qed.

Section Selection.
Context {num : Type} `{Arith num}.
Variable rank_velocity_genes : AnnData.t num → string → nat → string → Ranking.

(** Lines 81-83 once the grouping key is known to be valid. *)
Lemma var_names_raw_groups (adata : AnnData.t num) (vkey key : string)
    (var_names groups : PyArg) (categories : list string) :
  AnnData.obs adata !! key = Some (Categorical categories) →
  groups ≠ PyNone →
  var_names_raw rank_velocity_genes adata vkey var_names (PyStr key) groups
  = (let names := rank_names (ranking rank_velocity_genes adata vkey key) in
     let idx := group_mask (tokens_of groups) categories in
     k ← int_10_div (mask_sum idx);
     rows ← index_mask_upto names idx k;
     hstack rows).
Proof.
  intros Hcol Hgroups. unfold var_names_raw, valid_groupby. rewrite Hcol.
  by destruct groups.
Qed.

(** C1 (amended). In explicit mode, that is when no valid grouping key is
    given, a list of names is filtered to the genes on the dataset's gene
    axis and deduplicated keeping first occurrences in order, and a single
    string [s] is selected as the one-gene sequence [s] without the
    presence filter. *)
Theorem explicit_var_names_selection (adata : AnnData.t num) (vkey : string)
    (groupby groups : PyArg) (l : list string) (s : string) :
  valid_groupby adata groupby = None →
  select_var_names rank_velocity_genes adata vkey (PyList l) groupby groups
  = Ok (stable_dedup (filter (λ var, var ∈ AnnData.var_names adata) l))
  ∧ select_var_names rank_velocity_genes adata vkey (PyStr s) groupby groups = Ok [s].
Proof.
  intros Hgroupby. unfold select_var_names, var_names_raw. rewrite Hgroupby.
  split; simpl.
  - by rewrite unique_stable_dedup.
  - done.
Qed.

(** Without a source of genes the selection raises the [ValueError] of
    line 87. *)
Lemma select_var_names_no_source (adata : AnnData.t num) (vkey : string)
    (groupby groups : PyArg) :
  valid_groupby adata groupby = None →
  select_var_names rank_velocity_genes adata vkey PyNone groupby groups
  = Raise (ValueError "No var_names or groups specified.").
Proof.
  intros Hgroupby. unfold select_var_names, var_names_raw. by rewrite Hgroupby.
Qed.

(** C6. In group-ranking mode, with no subset requested the selection before
    deduplication is the first ranked gene of every group in group order;
    with a subset whose tokens match [m ≥ 1] groups it is the concatenation,
    in group order, of the first [10 `div` m] ranked genes of each matching
    group. The final selection is the stable deduplication of that. *)
Theorem group_ranking_selection (adata : AnnData.t num) (vkey key : string)
    (var_names : PyArg) (col : ObsColumn) :
  AnnData.obs adata !! key = Some col →
  let names := rank_names (ranking rank_velocity_genes adata vkey key) in
  (∀ tops : list string,
     names ≠ [] →
     head <$> names = Some <$> tops →
     var_names_raw rank_velocity_genes adata vkey var_names (PyStr key) PyNone = Ok tops
     ∧ select_var_names rank_velocity_genes adata vkey var_names (PyStr key) PyNone
       = Ok (stable_dedup tops))
  ∧ (∀ (groups : PyArg) (categories : list string),
       groups ≠ PyNone →
       col = Categorical categories →
       length categories = length names →
       let matching :=
         filter (λ gr, matches (tokens_of groups) gr.1) (zip categories names) in
       let m := length (filter (matches (tokens_of groups)) categories) in
       (1 ≤ m)%nat →
       let picked := concat ((λ gr, take (10 `div` m) gr.2) <$> matching) in
       var_names_raw rank_velocity_genes adata vkey var_names (PyStr key) groups = Ok picked
       ∧ select_var_names rank_velocity_genes adata vkey var_names (PyStr key) groups
         = Ok (stable_dedup picked)).
Proof.
  intros Hcol names. split.
  - intros tops Hne Hheads.
    assert (var_names_raw rank_velocity_genes adata vkey var_names (PyStr key) PyNone
            = Ok tops) as Hraw.
    { unfold var_names_raw, valid_groupby. rewrite Hcol. simpl.
      by apply column0_heads. }
    split; [done|]. unfold select_var_names. rewrite Hraw. simpl.
    by rewrite unique_stable_dedup.
  - intros groups categories Hgroups -> Hlen matching m Hm picked.
    assert (var_names_raw rank_velocity_genes adata vkey var_names (PyStr key) groups
            = Ok picked) as Hraw.
    { rewrite (var_names_raw_groups _ _ _ _ _ _ Hcol Hgroups). fold names. cbv zeta.
      rewrite mask_sum_group_mask. fold m.
      rewrite int_10_div_pos, result_bind_Ok by done.
      assert (length (group_mask (tokens_of groups) categories) = length names) as Hmask.
      { unfold group_mask. by rewrite length_fmap. }
      unfold index_mask_upto. rewrite decide_True, result_bind_Ok by done.
      rewrite mask_rows_group_mask, <- list_fmap_compose. fold matching.
      apply hstack_nonempty. intros Hnil%(f_equal length).
      rewrite length_fmap in Hnil. unfold matching in Hnil.
      rewrite length_filter_zip_fst in Hnil by done. fold m in Hnil.
      simpl in Hnil. lia. }
    split; [done|]. unfold select_var_names. rewrite Hraw. simpl.
    by rewrite unique_stable_dedup.
Qed.

(** When a subset is requested and no group label matches, the selection
    raises at [int(10 / idx.sum())]. *)
Lemma select_var_names_no_match (adata : AnnData.t num) (vkey key : string)
    (var_names groups : PyArg) (categories : list string) :
  AnnData.obs adata !! key = Some (Categorical categories) →
  groups ≠ PyNone →
  filter (matches (tokens_of groups)) categories = [] →
  select_var_names rank_velocity_genes adata vkey var_names (PyStr key) groups
  = Raise OverflowError.
Proof.
  intros Hcol Hgroups Hnone. unfold select_var_names.
  rewrite (var_names_raw_groups _ _ _ _ _ _ Hcol Hgroups). simpl.
  by rewrite mask_sum_group_mask, Hnone.
Qed.

End Selection.

(** ** Fit names and fit parameters *)

Section Fits.
Context {num : Type} `{Arith num}.

Lemma occurrences_app (name : string) (l1 l2 : list string) :
  occurrences name (l1 ++ l2) = (occurrences name l1 + occurrences name l2)%nat.
Proof. unfold occurrences. by rewrite filter_app, length_app. Qed.

(** C3 (amended). For every caller-supplied list of fit names the resolved
    list ends with ["dynamics"] and holds that name once more than the
    caller's list does: exactly once when the caller did not name it, and
    at least twice when the caller did, as the default list does. *)
Theorem resolve_fits_dynamics (adata : AnnData.t num) (l : list string) :
  ∃ fits, resolve_fits adata (PyList l) = Ok fits
    ∧ last fits = Some "dynamics"
    ∧ occurrences "dynamics" fits = S (occurrences "dynamics" l).
Proof.
  eexists. split; [reflexivity|]. split.
  - apply last_snoc.
  - rewrite occurrences_app. unfold occurrences at 1.
    rewrite list_filter_filter_l by (intros x ->; by left).
    fold (occurrences "dynamics" l).
    change (occurrences "dynamics" ["dynamics"]) with 1%nat. lia.
Qed.

Lemma var_or_absent (adata : AnnData.t num) (key var : string) (fallback : Z) :
  ¬ in_var_keys adata key → var_or adata key var fallback = of_int fallback.
Proof.
  unfold in_var_keys, var_or. intros Habsent.
  destruct (AnnData.var adata !! key) as [column|] eqn:Hkey; [|done].
  exfalso. apply Habsent. by exists column.
Qed.

Lemma var_or_present (adata : AnnData.t num) (key var : string) (fallback : Z)
    (column : string → num) :
  AnnData.var adata !! key = Some column → var_or adata key var fallback = column var.
Proof. unfold var_or. by intros ->. Qed.

End Fits.

(** ** Layout arithmetic *)

Lemma ceil_div_spec (a b : Z) :
  0 < b → (ceil_div a b - 1) * b < a ≤ ceil_div a b * b.
Proof.
  intros Hb. unfold ceil_div.
  pose proof (Z.div_mod (- a) b). pose proof (Z.mod_pos_bound (- a) b). nia.
Qed.

Lemma nplts_eq (layers : list string) (mode : PyArg) :
  nplts layers mode
  = 1 + Z.of_nat (length layers) + (if is_stochastic mode then 2 else 0).
Proof. unfold nplts. by destruct (is_stochastic mode). Qed.

(** ** Running the statements *)

Section Run.
Context {num : Type} `{Arith num}.
Variable second_order_moments : AnnData.t num → string → (nat → num) * (nat → num).


Lemma bind_Ok {A B} (m : M A) (f : A → M B) (fig fig' : Figure num) (a : A) :
  m fig = (fig', Ok a) → (m ≫= f) fig = f a fig'.
Proof. unfold mbind, M_bind. by intros ->. Qed.

Lemma bind_Raise {A B} (m : M A) (f : A → M B) (fig fig' : Figure num) (e : PyError) :
  m fig = (fig', Raise e) → (m ≫= f) fig = (fig', Raise e).
Proof. unfold mbind, M_bind. by intros ->. Qed.

Lemma subplot_in_grid (k : Z) (fig : Figure num) :
  0 ≤ k < cells_of_grid fig →
  subplot k fig
  = ({| gs := gs fig; gca := Some k; kwargs := kwargs fig; drawn := drawn fig |}, Ok k).
Proof.
  intros Hk. unfold subplot. cbv zeta.
  destruct (decide (k < 0)) as [Hneg|_]; [lia|].
  by destruct (decide (0 ≤ k < cells_of_grid fig)).
Qed.

(** *** Keywords passed twice *)

Lemma collides_app (l1 l2 : list string) (kw : Kwargs) :
  collides (l1 ++ l2) kw = collides l1 kw || collides l2 kw.
Proof. apply existsb_app. Qed.

Lemma collides_cons (key : string) (explicit : list string) (kw : Kwargs) :
  collides (key :: explicit) kw
  = bool_decide (is_Some (kw !! key)) || collides explicit kw.
Proof. reflexivity. Qed.

Lemma collides_insert (explicit : list string) (key value : string) (kw : Kwargs) :
  key ∉ explicit → collides explicit (<[key := value]> kw) = collides explicit kw.
Proof.
  induction explicit as [|k explicit IH]; intros Hkey; [done|].
  rewrite !collides_cons. apply not_elem_of_cons in Hkey as [Hne Hkey].
  rewrite lookup_insert_ne by done. by rewrite IH.
Qed.

Lemma collides_delete (explicit : list string) (key : string) (kw : Kwargs) :
  key ∉ explicit → collides explicit (delete key kw) = collides explicit kw.
Proof.
  induction explicit as [|k explicit IH]; intros Hkey; [done|].
  rewrite !collides_cons. apply not_elem_of_cons in Hkey as [Hne Hkey].
  rewrite lookup_delete_ne by done. by rewrite IH.
Qed.

Lemma collides_setdefault (explicit : list string) (key value : string) (kw : Kwargs) :
  key ∉ explicit → collides explicit (setdefault key value kw) = collides explicit kw.
Proof.
  intros Hkey. unfold setdefault. destruct (decide _); [done|].
  by apply collides_insert.
Qed.

Lemma passed_by_name_portrait : passed_by_name portrait_keywords.
Proof. by apply (bool_decide_unpack _). Qed.

Lemma passed_by_name_layer : passed_by_name layer_keywords.
Proof. by apply (bool_decide_unpack _). Qed.

Lemma passed_by_name_stochastic : passed_by_name stochastic_keywords.
Proof. by apply (bool_decide_unpack _). Qed.

Lemma collides_default_labels (explicit : list string) (kw : Kwargs) :
  passed_by_name explicit → collides explicit (default_labels kw) = collides explicit kw.
Proof.
  intros Hown. unfold default_labels.
  rewrite !collides_setdefault; [done| |];
    eapply (proj1 (Forall_forall _ _) Hown); unfold own_keys; set_solver.
Qed.

Lemma collides_stochastic_labels (explicit : list string) (kw : Kwargs) :
  passed_by_name explicit → collides explicit (stochastic_labels kw) = collides explicit kw.
Proof.
  intros Hown. unfold stochastic_labels.
  rewrite !collides_insert; [done| |];
    eapply (proj1 (Forall_forall _ _) Hown); unfold own_keys; set_solver.
Qed.

Lemma collides_pop_colors (explicit : list string) (kw : Kwargs) :
  passed_by_name explicit → collides explicit (pop_colors kw) = collides explicit kw.
Proof.
  intros Hown. unfold pop_colors.
  rewrite !collides_delete; [done| |];
    eapply (proj1 (Forall_forall _ _) Hown); unfold own_keys; set_solver.
Qed.

Lemma collides_kwargs_after (explicit : list string) (a : Args.t) (kw : Kwargs) :
  passed_by_name explicit → collides explicit (kwargs_after a kw) = collides explicit kw.
Proof.
  intros Hown. unfold kwargs_after. destruct (is_stochastic _).
  - by rewrite collides_stochastic_labels, collides_default_labels.
  - by rewrite collides_default_labels.
Qed.

Lemma scatter_run (explicit : list string) (e : Kwargs → Event num) (fig : Figure num) :
  collides explicit (kwargs fig) = false →
  scatter explicit e fig
  = ({| gs := gs fig; gca := gca fig; kwargs := kwargs fig;
        drawn := drawn fig ++ [e (kwargs fig)] |}, Ok ()).
Proof. intros Hkw. unfold scatter. by rewrite Hkw. Qed.

Lemma scatter_collision (explicit : list string) (e : Kwargs → Event num)
    (fig : Figure num) :
  collides explicit (kwargs fig) = true →
  scatter explicit e fig = (fig, Raise TypeError).
Proof. intros Hkw. unfold scatter. by rewrite Hkw. Qed.

Lemma subplot_scatter_run (k : Z) (explicit : list string) (e : Z → Kwargs → Event num)
    (fig : Figure num) :
  0 ≤ k < cells_of_grid fig →
  collides explicit (kwargs fig) = false →
  (ax ← subplot k; scatter explicit (e ax)) fig
  = ({| gs := gs fig; gca := Some k; kwargs := kwargs fig;
        drawn := drawn fig ++ [e k (kwargs fig)] |}, Ok ()).
Proof.
  intros Hk Hkw. erewrite bind_Ok by by apply subplot_in_grid.
  by rewrite scatter_run.
Qed.

(** The layer panels of one gene (lines 127-136). *)
Lemma layer_panels_run (skey : string) (nplts : Z) (v : nat) (var : string)
    (layers : list string) (l0 : nat) (fig : Figure num) :
  0 ≤ Z.of_nat v * nplts →
  collides layer_keywords (kwargs fig) = false →
  Z.of_nat v * nplts + Z.of_nat (l0 + length layers) + 1 ≤ cells_of_grid fig →
  ∃ fig',
    for_enumerate (λ l layer,
        ax ← subplot (Z.of_nat v * nplts + Z.of_nat l + 1);
        scatter layer_keywords (Embedding ax var layer (title_of skey layer))) l0 layers fig
    = (fig', Ok ())
    ∧ gs fig' = gs fig
    ∧ kwargs fig' = kwargs fig
    ∧ drawn fig' = drawn fig ++ layer_events skey layers nplts (kwargs fig) v var l0.
Proof.
  intros Hv. revert l0 fig.
  induction layers as [|layer layers IH]; intros l0 fig Hkw Hgrid.
  - exists fig. unfold layer_events. simpl. by rewrite app_nil_r.
  - simpl in Hgrid. simpl.
    erewrite bind_Ok; last first.
    { apply (subplot_scatter_run _ _ (λ ax, Embedding ax var layer (title_of skey layer)));
        [lia | done]. }
    destruct (IH (S l0)
      {| gs := gs fig; gca := Some (Z.of_nat v * nplts + Z.of_nat l0 + 1);
         kwargs := kwargs fig;
         drawn := drawn fig
           ++ [Embedding (Z.of_nat v * nplts + Z.of_nat l0 + 1) var layer
                 (title_of skey layer) (kwargs fig)] |})
      as (fig' & Hrun & Hgs & Hkw' & Hdrawn).
    { done. }
    { unfold cells_of_grid in *. simpl. lia. }
    exists fig'. split; [exact Hrun|]. split; [done|]. split; [done|].
    rewrite Hdrawn. simpl. rewrite <- app_assoc. f_equal.
    unfold layer_events. rewrite imap_cons. simpl. rewrite Nat.add_0_r. f_equal.
    apply imap_ext. intros l x _. simpl. do 2 f_equal. lia.
Qed.

(** The overlay lines of one gene (lines 154-159). *)
Lemma lines_run (adata : AnnData.t num) (var : string) (xnew : list num)
    (fits : list string) (i : nat) (fig : Figure num) :
  for_enumerate (λ _ fit, plot xnew (fit_line_of adata var xnew fit)) i fits fig
  = ({| gs := gs fig; gca := gca fig; kwargs := kwargs fig;
        drawn := drawn fig
          ++ ((λ fit, DashedLine (gca fig) xnew (fit_line_of adata var xnew fit)) <$> fits) |},
     Ok ()).
Proof.
  revert i fig. induction fits as [|fit fits IH]; intros i fig.
  - simpl. rewrite app_nil_r. by destruct fig.
  - simpl. erewrite bind_Ok; [|reflexivity]. rewrite IH. simpl.
    by rewrite <- app_assoc.
Qed.

Lemma np_min_cons (a : num) (x : list num) : np_min (a :: x) = Ok (foldl num_min a x).
Proof. reflexivity. Qed.

Lemma np_max_cons (a : num) (x : list num) : np_max (a :: x) = Ok (foldl num_max a x).
Proof. reflexivity. Qed.

Lemma corrected_xs_nonempty (adata : AnnData.t num) (s ss : nat → num) :
  AnnData.n_obs adata ≠ 0%nat →
  ∃ a x, corrected_xs adata s ss = a :: x.
Proof.
  unfold corrected_xs, cells. destruct (AnnData.n_obs adata); [done|].
  intros _. simpl. eauto.
Qed.

(** *** Line 147 *)

Lemma var_series_or_absent (adata : AnnData.t num) (key var : string) (fallback : Z) :
  ¬ in_var_keys adata key → var_series_or adata key var fallback = Scalar (of_int fallback).
Proof.
  unfold in_var_keys, var_series_or. intros Habsent.
  destruct (AnnData.var adata !! key) as [column|] eqn:Hkey; [|done].
  exfalso. apply Habsent. by exists column.
Qed.

Lemma var_series_or_present (adata : AnnData.t num) (key var : string) (fallback : Z) :
  in_var_keys adata key → ∃ x, var_series_or adata key var fallback = Series x.
Proof.
  unfold in_var_keys, var_series_or. intros [column ->]. by eexists.
Qed.

Lemma broadcast_Ok (op : num → num → num) (a : list num) (o : Operand) :
  (length a = 1%nat ∨ ∃ x, o = Scalar x) →
  broadcast op a o = Ok ((λ ai, op ai (operand_value o)) <$> a).
Proof.
  intros [Hone|[x ->]]; [|done].
  destruct o as [x|x]; [done|]. simpl. by rewrite decide_True.
Qed.

Lemma broadcast_Series (op : num → num → num) (a : list num) (x : num) :
  length a ≠ 1%nat →
  ∃ msg, broadcast op a (Series x) = Raise (ValueError msg).
Proof. intros Hlen. simpl. rewrite decide_False by done. by eexists. Qed.

Lemma zip_with_fmap_same {A B C D} (f : B → C → D) (g : A → B) (h : A → C) (l : list A) :
  zip_with f (g <$> l) (h <$> l) = (λ x, f (g x) (h x)) <$> l.
Proof. induction l as [|x l IH]; [done|]. csimpl. by f_equal. Qed.

(** Line 147 computes its value when [offset] and [beta] are plain numbers,
    and when there is one cell. *)
Lemma corrected_ys_run (adata : AnnData.t num) (s u us : nat → num)
    (offset beta : Operand) :
  (AnnData.n_obs adata = 1%nat ∨ ∃ x y, offset = Scalar x ∧ beta = Scalar y) →
  corrected_ys adata s u us offset beta
  = Ok (corrected_ys_values adata s u us (operand_value offset) (operand_value beta)).
Proof.
  intros Hcase. unfold corrected_ys, corrected_ys_values.
  rewrite broadcast_Ok; last first.
  { destruct Hcase as [Hone|(x & y & -> & _)]; [left|right; by eexists].
    unfold cells. by rewrite length_fmap, length_seq. }
  rewrite result_bind_Ok.
  rewrite broadcast_Ok; last first.
  { destruct Hcase as [Hone|(x & y & _ & ->)]; [left|right; by eexists].
    unfold cells. by rewrite !length_fmap, length_seq. }
  rewrite result_bind_Ok. unfold mret, result_ret. f_equal.
  rewrite <- !list_fmap_compose. by rewrite zip_with_fmap_same.
Qed.

(** With a Series for [offset] or [beta] and another number of cells than
    one, line 147 raises [ValueError]. *)
Lemma corrected_ys_raises (adata : AnnData.t num) (s u us : nat → num)
    (offset beta : Operand) :
  AnnData.n_obs adata ≠ 1%nat →
  (∃ x, offset = Series x) ∨ (∃ x, beta = Series x) →
  ∃ msg, corrected_ys adata s u us offset beta = Raise (ValueError msg).
Proof.
  intros Hobs Hseries. unfold corrected_ys.
  assert (length ((λ i, mul (of_int 2) (s i)) <$> cells adata) ≠ 1%nat) as Hlen.
  { unfold cells. by rewrite length_fmap, length_seq. }
  destruct offset as [x|x].
  - destruct Hseries as [[y [=]]|[y ->]].
    simpl. rewrite decide_False by (by rewrite length_fmap). by eexists.
  - simpl. rewrite decide_False by done. by eexists.
Qed.



Lemma stochastic_drawable_first (adata : AnnData.t num) (stochastic_fits : list string)
    (var : string) :
  stochastic_drawable adata stochastic_fits →
  ∃ fit rest,
    stochastic_fits = fit :: rest
    ∧ (AnnData.n_obs adata = 1%nat
       ∨ ∃ x y, fit_offset adata fit var = Scalar x ∧ fit_beta adata fit var = Scalar y).
Proof.
  intros (_ & fit & rest & -> & Hcase). exists fit, rest. split; [done|].
  destruct Hcase as [Hone|[Hoffset Hbeta]]; [by left|right].
  unfold fit_offset, fit_beta.
  rewrite !var_series_or_absent by done. by eexists _, _.
Qed.

(** The stochastic panel of one gene (lines 138-159). *)
Lemma stochastic_panel_run (adata : AnnData.t num) (s u : nat → num)
    (layers stochastic_fits : list string) (nplts : Z) (v : nat) (var : string)
    (fig : Figure num) :
  stochastic_drawable adata stochastic_fits →
  collides stochastic_keywords (kwargs fig) = false →
  0 ≤ Z.of_nat v * nplts + Z.of_nat (length layers) + 1 < cells_of_grid fig →
  ∃ fig',
    stochastic_panel second_order_moments adata s u layers stochastic_fits nplts v var fig
    = (fig', Ok ())
    ∧ gs fig' = gs fig
    ∧ kwargs fig' = stochastic_labels (kwargs fig)
    ∧ drawn fig'
      = drawn fig
        ++ stochastic_events second_order_moments adata s u layers stochastic_fits
             nplts (kwargs fig) v var.
Proof.
  intros Hdrawable Hkw Hgrid.
  destruct (stochastic_drawable_first adata stochastic_fits var Hdrawable)
    as (fit & fits & -> & Hcase).
  destruct Hdrawable as [Hobs _].
  unfold stochastic_panel, stochastic_events, stochastic_lines.
  destruct (second_order_moments adata var) as [ss us].
  simpl head. simpl default. simpl fst. simpl snd.
  destruct (corrected_xs_nonempty adata s ss Hobs) as (x0 & x & Hx).
  erewrite bind_Ok; [|reflexivity].
  erewrite bind_Ok; [|by apply subplot_in_grid].
  rewrite (corrected_ys_run adata s u us _ _ Hcase).
  erewrite bind_Ok; [|reflexivity].
  erewrite bind_Ok; [|reflexivity].
  erewrite bind_Ok; last first.
  { apply scatter_run. simpl kwargs.
    by rewrite collides_stochastic_labels by apply passed_by_name_stochastic. }
  rewrite Hx.
  erewrite bind_Ok; [|reflexivity].
  erewrite bind_Ok; [|reflexivity].
  rewrite lines_run. eexists. split; [reflexivity|]. simpl.
  split; [done|]. split; [done|]. by rewrite <- app_assoc.
Qed.

Lemma layer_of_present (adata : AnnData.t num) (key var : string)
    (layer : string → nat → num) :
  alist_get key (AnnData.layers adata) = Some layer →
  layer_of adata key var = Ok (layer var).
Proof. unfold layer_of. by intros ->. Qed.

(** All panels of one gene (lines 111-159). *)
Lemma gene_panels_run (adata : AnnData.t num) (a : Args.t) (skey ukey : string)
    (s u : string → nat → num) (layers fits stochastic_fits : list string)
    (n_var v : nat) (var : string) (fig : Figure num) :
  let P := nplts layers (Args.mode a) in
  var ∈ AnnData.var_names adata →
  alist_get skey (AnnData.layers adata) = Some s →
  alist_get ukey (AnnData.layers adata) = Some u →
  collides (portrait_keywords ++ layer_keywords) (kwargs fig) = false →
  (is_stochastic (Args.mode a) = true →
   collides stochastic_keywords (kwargs fig) = false
   ∧ stochastic_drawable adata stochastic_fits) →
  (Z.of_nat v + 1) * P ≤ cells_of_grid fig →
  ∃ fig',
    gene_panels second_order_moments adata a skey ukey layers fits stochastic_fits
      P n_var v var fig
    = (fig', Ok ())
    ∧ gs fig' = gs fig
    ∧ kwargs fig' = kwargs_after a (kwargs fig)
    ∧ drawn fig'
      = drawn fig
        ++ gene_events second_order_moments adata a skey s u layers fits stochastic_fits
             P n_var (kwargs fig) v var.
Proof.
  intros P Hvar Hs Hu Hkw Hstoch Hgrid.
  rewrite collides_app in Hkw. apply orb_false_elim in Hkw as [Hportrait Hlayer].
  assert (P = 1 + Z.of_nat (length layers) + (if is_stochastic (Args.mode a) then 2 else 0))
    as HP by apply nplts_eq.
  assert (1 + Z.of_nat (length layers) ≤ P) as HP1
    by (rewrite HP; destruct (is_stochastic _); lia).
  unfold gene_panels, gene_events.
  rewrite decide_True by done.
  rewrite (layer_of_present _ _ var _ Hs), (layer_of_present _ _ var _ Hu).
  erewrite bind_Ok; [|reflexivity].
  erewrite bind_Ok; [|reflexivity].
  erewrite bind_Ok; [|reflexivity].
  erewrite bind_Ok; [|apply subplot_in_grid; nia].
  erewrite bind_Ok; [|reflexivity].
  erewrite bind_Ok; last first.
  { apply scatter_run. simpl kwargs.
    by rewrite collides_default_labels by apply passed_by_name_portrait. }
  match goal with |- context [mbind _ _ ?f] => set (fig1 := f) end.
  destruct (layer_panels_run skey P v var layers 0 fig1)
    as (fig2 & Hrun2 & Hgs2 & Hkw2 & Hdrawn2).
  { nia. }
  { unfold fig1. simpl kwargs.
    by rewrite collides_default_labels by apply passed_by_name_layer. }
  { unfold fig1, cells_of_grid in *. simpl. nia. }
  unfold layer_panels. erewrite bind_Ok; [|exact Hrun2].
  destruct (is_stochastic (Args.mode a)) eqn:Hmode.
  - destruct (Hstoch eq_refl) as [Hkws Hdrawable].
    destruct (stochastic_panel_run adata (s var) (u var) layers stochastic_fits P v var fig2)
      as (fig3 & Hrun3 & Hgs3 & Hkw3 & Hdrawn3); [done| | |].
    { rewrite Hkw2. unfold fig1. simpl kwargs.
      by rewrite collides_default_labels by apply passed_by_name_stochastic. }
    { unfold cells_of_grid in *. rewrite Hgs2. unfold fig1. simpl. nia. }
    exists fig3. split; [done|]. split; [by rewrite Hgs3, Hgs2|].
    split; [by unfold kwargs_after; rewrite Hmode, Hkw3, Hkw2|].
    rewrite Hdrawn3, Hdrawn2, Hkw2. unfold fig1. simpl.
    by rewrite <- !app_assoc.
  - exists fig2. split; [done|]. split; [by rewrite Hgs2|].
    split; [by unfold kwargs_after; rewrite Hmode, Hkw2|].
    rewrite Hdrawn2. unfold fig1. simpl.
    by rewrite app_nil_r, <- !app_assoc.
Qed.

(** The loop over the selected genes (line 110). *)
Lemma loop_run (adata : AnnData.t num) (a : Args.t) (skey ukey : string)
    (s u : string → nat → num) (layers fits stochastic_fits : list string)
    (n_var : nat) (var_names : list string) (v : nat) (fig : Figure num) :
  let P := nplts layers (Args.mode a) in
  Forall (λ var, var ∈ AnnData.var_names adata) var_names →
  alist_get skey (AnnData.layers adata) = Some s →
  alist_get ukey (AnnData.layers adata) = Some u →
  collides (portrait_keywords ++ layer_keywords) (kwargs fig) = false →
  (is_stochastic (Args.mode a) = true →
   collides stochastic_keywords (kwargs fig) = false
   ∧ stochastic_drawable adata stochastic_fits) →
  Z.of_nat (v + length var_names) * P ≤ cells_of_grid fig →
  ∃ fig',
    for_enumerate
      (gene_panels second_order_moments adata a skey ukey layers fits stochastic_fits
         P n_var)
      v var_names fig
    = (fig', Ok ())
    ∧ gs fig' = gs fig
    ∧ drawn fig'
      = drawn fig
        ++ concat (loop_events second_order_moments adata a skey s u layers fits
                     stochastic_fits P n_var (kwargs fig) v var_names).
Proof.
  intros P Hgenes Hs Hu. revert v fig.
  assert (0 ≤ P) as HP0.
  { unfold P. rewrite nplts_eq. destruct (is_stochastic _); lia. }
  assert (passed_by_name (portrait_keywords ++ layer_keywords)) as Hown
    by by apply (bool_decide_unpack _).
  induction Hgenes as [|var rest Hvar Hrest IH]; intros v fig Hkw Hstoch Hgrid.
  - exists fig. simpl. by rewrite app_nil_r.
  - simpl in Hgrid.
    destruct (gene_panels_run adata a skey ukey s u layers fits stochastic_fits
                n_var v var fig Hvar Hs Hu Hkw Hstoch)
      as (fig1 & Hrun1 & Hgs1 & Hkw1 & Hdrawn1).
    { fold P. nia. }
    destruct (IH (S v) fig1) as (fig2 & Hrun2 & Hgs2 & Hdrawn2).
    { by rewrite Hkw1, collides_kwargs_after. }
    { intros Hmode. destruct (Hstoch Hmode) as [Hkws Hdrawable]. split; [|done].
      by rewrite Hkw1, collides_kwargs_after by apply passed_by_name_stochastic. }
    { unfold cells_of_grid in *. rewrite Hgs1. nia. }
    exists fig2. simpl. erewrite bind_Ok; [|exact Hrun1].
    split; [exact Hrun2|]. split; [by rewrite Hgs2|].
    rewrite Hdrawn2, Hdrawn1, Hkw1. by rewrite <- app_assoc.
Qed.

End Run.

(** ** The whole call *)

Section Call.
Context {num : Type} `{Arith num}.
Variable rank_velocity_genes : AnnData.t num → string → nat → string → Ranking.
Variable second_order_moments : AnnData.t num → string → (nat → num) * (nat → num).


(** An exception of the gene selection ends the call before [GridSpec]
    exists: nothing has been drawn. *)
Lemma velocity_selection_raises (adata : AnnData.t num) (a : Args.t) (e : PyError) :
  select_var_names rank_velocity_genes adata (Args.vkey a) (Args.var_names a)
    (Args.groupby a) (Args.groups a) = Raise e →
  velocity rank_velocity_genes second_order_moments adata a = (blank (Args.kwargs a), Raise e).
Proof.
  intros Hsel. unfold velocity, velocity, velocity_stmts.
  apply bind_Raise. unfold lift. by rewrite Hsel.
Qed.

(** Up to the loop the call only computes: selection, layers, fits and the
    shape of the grid. With a selected gene and at least one column of genes
    the figure and the grid are made. *)
Lemma velocity_unfold (adata : AnnData.t num) (a : Args.t)
    (var_names layers fits : list string) :
  let keys := abundance_keys adata (Args.use_raw a) in
  let c := default 1 (Args.ncols a) in
  let P := nplts layers (Args.mode a) in
  select_var_names rank_velocity_genes adata (Args.vkey a) (Args.var_names a)
    (Args.groupby a) (Args.groups a) = Ok var_names →
  resolve_layers adata (Args.vkey a) keys.1 (Args.layers a) = Ok layers →
  resolve_fits adata (Args.fits a) = Ok fits →
  1 ≤ c →
  var_names ≠ [] →
  velocity rank_velocity_genes second_order_moments adata a
  = for_enumerate
      (gene_panels second_order_moments adata a keys.1 keys.2 layers fits
         (stochastic_fits adata fits) P (length var_names))
      0 var_names
      {| gs := (ceil_div (Z.of_nat (length var_names)) c, c * P);
         gca := None; kwargs := pop_colors (Args.kwargs a); drawn := [] |}.
Proof.
  intros keys c P Hsel Hlayers Hfits Hc Hgenes.
  unfold velocity, velocity_stmts.
  unfold lift at 1. rewrite Hsel.
  erewrite bind_Ok; [|reflexivity].
  fold keys. destruct keys as [skey ukey] eqn:Hkeys. simpl in Hlayers. simpl fst. simpl snd.
  rewrite Hlayers, Hfits.
  erewrite bind_Ok; [|reflexivity].
  erewrite bind_Ok; [|reflexivity].
  fold P. unfold grid_shape. fold c. rewrite decide_False by lia.
  erewrite bind_Ok; [|reflexivity].
  assert (1 ≤ P) as HP.
  { unfold P. rewrite nplts_eq. destruct (is_stochastic _); lia. }
  assert (1 ≤ ceil_div (Z.of_nat (length var_names)) c) as Hrows.
  { pose proof (ceil_div_spec (Z.of_nat (length var_names)) c).
    destruct var_names; [done|]. simpl length in *. nia. }
  unfold figure, GridSpec, blank.
  erewrite bind_Ok; last first.
  { rewrite decide_False by nia. reflexivity. }
  erewrite bind_Ok; last first.
  { rewrite decide_False by lia. rewrite decide_False by nia. reflexivity. }
  reflexivity.
Qed.

(** An empty selection asks for a grid without rows: the call ends in the
    [ValueError] of [GridSpec], and nothing is drawn. *)
Lemma velocity_empty_selection (adata : AnnData.t num) (a : Args.t)
    (layers fits : list string) :
  let keys := abundance_keys adata (Args.use_raw a) in
  select_var_names rank_velocity_genes adata (Args.vkey a) (Args.var_names a)
    (Args.groupby a) (Args.groups a) = Ok [] →
  resolve_layers adata (Args.vkey a) keys.1 (Args.layers a) = Ok layers →
  resolve_fits adata (Args.fits a) = Ok fits →
  1 ≤ default 1 (Args.ncols a) →
  velocity rank_velocity_genes second_order_moments adata a
  = (blank (Args.kwargs a),
     Raise (ValueError "Number of rows must be a positive integer")).
Proof.
  intros keys Hsel Hlayers Hfits Hc.
  unfold velocity, velocity_stmts.
  unfold lift at 1. rewrite Hsel.
  erewrite bind_Ok; [|reflexivity].
  fold keys. destruct keys as [skey ukey] eqn:Hkeys. simpl in Hlayers.
  rewrite Hlayers, Hfits.
  erewrite bind_Ok; [|reflexivity].
  erewrite bind_Ok; [|reflexivity].
  unfold grid_shape. rewrite decide_False by lia.
  erewrite bind_Ok; [|reflexivity].
  assert (1 ≤ nplts layers (Args.mode a)) as HP.
  { rewrite nplts_eq. destruct (is_stochastic _); lia. }
  assert (ceil_div (Z.of_nat (length (@nil string))) (default 1 (Args.ncols a)) = 0) as ->.
  { unfold ceil_div. simpl. by rewrite Z.div_0_l by lia. }
  unfold figure, GridSpec.
  erewrite bind_Ok; last first.
  { rewrite decide_False by nia. reflexivity. }
  apply bind_Raise. by rewrite decide_True by lia.
Qed.

(** The caller's keywords decide whether a call of [scatter] collides. *)
Lemma drawable_kwargs (adata : AnnData.t num) (a : Args.t) (skey ukey : string)
    (s u : string → nat → num) (var_names stochastic_fits : list string) :
  drawable adata a skey ukey s u var_names stochastic_fits →
  collides (portrait_keywords ++ layer_keywords) (pop_colors (Args.kwargs a)) = false
  ∧ (is_stochastic (Args.mode a) = true →
     collides stochastic_keywords (pop_colors (Args.kwargs a)) = false
     ∧ stochastic_drawable adata stochastic_fits).
Proof.
  intros ((_ & _ & _ & _ & Hkw) & Hstoch). split.
  - rewrite collides_pop_colors; [done|]. by apply (bool_decide_unpack _).
  - intros Hmode. destruct (Hstoch Hmode) as [Hkws Hdrawable]. split; [|done].
    by rewrite collides_pop_colors by apply passed_by_name_stochastic.
Qed.

(** A call on a drawable dataset returns, and leaves on a grid of
    [ceil(g / c)] rows and [c * nplts] columns the panels of the selected
    genes, gene after gene. *)
Lemma velocity_run (adata : AnnData.t num) (a : Args.t)
    (var_names layers fits : list string) (s u : string → nat → num) :
  let keys := abundance_keys adata (Args.use_raw a) in
  let c := default 1 (Args.ncols a) in
  let P := nplts layers (Args.mode a) in
  select_var_names rank_velocity_genes adata (Args.vkey a) (Args.var_names a)
    (Args.groupby a) (Args.groups a) = Ok var_names →
  resolve_layers adata (Args.vkey a) keys.1 (Args.layers a) = Ok layers →
  resolve_fits adata (Args.fits a) = Ok fits →
  1 ≤ c →
  drawable adata a keys.1 keys.2 s u var_names (stochastic_fits adata fits) →
  ∃ fig,
    velocity rank_velocity_genes second_order_moments adata a = (fig, Ok ())
    ∧ gs fig = (ceil_div (Z.of_nat (length var_names)) c, c * P)
    ∧ drawn fig
      = concat (loop_events second_order_moments adata a keys.1 s u layers fits
                  (stochastic_fits adata fits) P (length var_names)
                  (pop_colors (Args.kwargs a)) 0 var_names).
Proof.
  intros keys c P Hsel Hlayers Hfits Hc Hdrawable.
  destruct (drawable_kwargs _ _ _ _ _ _ _ _ Hdrawable) as [Hkw Hstoch].
  destruct Hdrawable as ((Hne & Hgenes & Hs & Hu & _) & _).
  rewrite (velocity_unfold adata a var_names layers fits Hsel Hlayers Hfits)
    by (done || (fold c; lia)).
  fold keys c P.
  match goal with |- context [for_enumerate _ _ _ ?f] => set (fig0 := f) end.
  destruct (loop_run second_order_moments adata a keys.1 keys.2 s u layers fits
              (stochastic_fits adata fits) (length var_names) var_names 0 fig0
              Hgenes Hs Hu Hkw Hstoch)
    as (fig & Hrun & Hgs & Hdrawn).
  { unfold fig0, cells_of_grid. simpl. fold P.
    pose proof (ceil_div_spec (Z.of_nat (length var_names)) c).
    assert (0 ≤ P) by (unfold P; rewrite nplts_eq; destruct (is_stochastic _); lia).
    nia. }
  exists fig. split; [exact Hrun|]. split; [by rewrite Hgs|].
  by rewrite Hdrawn.
Qed.

(** In stochastic mode without a stochastic-capable fit the iteration for a
    gene draws the phase portrait and the layer panels and then raises
    [IndexError] at [stochastic_fits[0]]. *)
Lemma gene_panels_without_fit (adata : AnnData.t num) (a : Args.t) (skey ukey : string)
    (s u : string → nat → num) (layers fits : list string)
    (n_var v : nat) (var : string) (fig : Figure num) :
  let P := nplts layers (Args.mode a) in
  var ∈ AnnData.var_names adata →
  alist_get skey (AnnData.layers adata) = Some s →
  alist_get ukey (AnnData.layers adata) = Some u →
  collides (portrait_keywords ++ layer_keywords) (kwargs fig) = false →
  is_stochastic (Args.mode a) = true →
  (Z.of_nat v + 1) * P ≤ cells_of_grid fig →
  ∃ fig',
    gene_panels second_order_moments adata a skey ukey layers fits [] P n_var v var fig
    = (fig', Raise IndexError)
    ∧ drawn fig'
      = drawn fig
        ++ PhasePortrait (Z.of_nat v * P) var fits (legend_loc_lines a n_var v)
             (default_labels (kwargs fig))
           :: layer_events skey layers P (default_labels (kwargs fig)) v var 0.
Proof.
  intros P Hvar Hs Hu Hkw Hmode Hgrid.
  rewrite collides_app in Hkw. apply orb_false_elim in Hkw as [Hportrait Hlayer].
  assert (P = 3 + Z.of_nat (length layers)) as HP
    by (unfold P; rewrite nplts_eq, Hmode; lia).
  unfold gene_panels.
  rewrite decide_True by done.
  rewrite (layer_of_present _ _ var _ Hs), (layer_of_present _ _ var _ Hu).
  erewrite bind_Ok; [|reflexivity].
  erewrite bind_Ok; [|reflexivity].
  erewrite bind_Ok; [|reflexivity].
  erewrite bind_Ok; [|apply subplot_in_grid; nia].
  erewrite bind_Ok; [|reflexivity].
  erewrite bind_Ok; last first.
  { apply scatter_run. simpl kwargs.
    by rewrite collides_default_labels by apply passed_by_name_portrait. }
  match goal with |- context [mbind _ _ ?f] => set (fig1 := f) end.
  destruct (layer_panels_run skey P v var layers 0 fig1)
    as (fig2 & Hrun2 & Hgs2 & Hkw2 & Hdrawn2); [nia| | |].
  { unfold fig1. simpl kwargs.
    by rewrite collides_default_labels by apply passed_by_name_layer. }
  { unfold fig1, cells_of_grid in *. simpl. nia. }
  unfold layer_panels. erewrite bind_Ok; [|exact Hrun2].
  rewrite Hmode. unfold stochastic_panel.
  destruct (second_order_moments adata var) as [ss us].
  exists fig2. split.
  - by apply bind_Raise.
  - rewrite Hdrawn2. unfold fig1. simpl. by rewrite <- app_assoc.
Qed.

(** So a stochastic call that has selected at least one gene and finds no
    stochastic-capable fit ends in [IndexError], with the first gene's
    portrait and layer panels drawn. *)
Lemma stochastic_without_fit_raises (adata : AnnData.t num) (a : Args.t)
    (var : string) (rest layers fits : list string) (s u : string → nat → num) :
  let keys := abundance_keys adata (Args.use_raw a) in
  let c := default 1 (Args.ncols a) in
  let P := nplts layers (Args.mode a) in
  select_var_names rank_velocity_genes adata (Args.vkey a) (Args.var_names a)
    (Args.groupby a) (Args.groups a) = Ok (var :: rest) →
  resolve_layers adata (Args.vkey a) keys.1 (Args.layers a) = Ok layers →
  resolve_fits adata (Args.fits a) = Ok fits →
  1 ≤ c →
  var ∈ AnnData.var_names adata →
  alist_get keys.1 (AnnData.layers adata) = Some s →
  alist_get keys.2 (AnnData.layers adata) = Some u →
  collides (portrait_keywords ++ layer_keywords) (Args.kwargs a) = false →
  is_stochastic (Args.mode a) = true →
  stochastic_fits adata fits = [] →
  ∃ fig,
    velocity rank_velocity_genes second_order_moments adata a = (fig, Raise IndexError)
    ∧ drawn fig
      = PhasePortrait 0 var fits (legend_loc_lines a (S (length rest)) 0)
          (default_labels (pop_colors (Args.kwargs a)))
        :: layer_events keys.1 layers P (default_labels (pop_colors (Args.kwargs a))) 0 var 0.
Proof.
  intros keys c P Hsel Hlayers Hfits Hc Hvar Hs Hu Hkw Hmode Hempty.
  rewrite (velocity_unfold adata a (var :: rest) layers fits Hsel Hlayers Hfits)
    by (done || (fold c; lia)).
  fold keys c P. rewrite Hempty.
  match goal with |- context [for_enumerate _ _ _ ?f] => set (fig0 := f) end.
  destruct (gene_panels_without_fit adata a keys.1 keys.2 s u layers fits
              (length (var :: rest)) 0 var fig0 Hvar Hs Hu)
    as (fig & Hrun & Hdrawn); [|done|..].
  { unfold fig0. simpl kwargs. rewrite collides_pop_colors; [done|].
    by apply (bool_decide_unpack _). }
  { fold P. unfold fig0, cells_of_grid. simpl gs. simpl fst. simpl snd.
    assert (P = 3 + Z.of_nat (length layers)) as HP
      by (unfold P; rewrite nplts_eq, Hmode; lia).
    pose proof (ceil_div_spec (Z.of_nat (length (var :: rest))) c) as Hceil.
    simpl length in *. nia. }
  exists fig. split.
  - apply bind_Raise. exact Hrun.
  - rewrite Hdrawn. reflexivity.
Qed.

(** C9. When [var_names] is not given and [groupby] is not a string among
    the keys of the per-cell annotations, the call raises the [ValueError]
    of line 87, the configuration error of the specification, and the
    figure is still blank: nothing has been drawn. *)
Theorem no_gene_source_raises (adata : AnnData.t num) (a : Args.t) :
  Args.var_names a = PyNone →
  (∀ key, Args.groupby a = PyStr key → AnnData.obs adata !! key = None) →
  velocity rank_velocity_genes second_order_moments adata a
  = (blank (Args.kwargs a), Raise (ValueError "No var_names or groups specified."))
  ∧ drawn (velocity rank_velocity_genes second_order_moments adata a).1 = [].
Proof.
  intros Hvar Hgroupby.
  assert (velocity rank_velocity_genes second_order_moments adata a
          = (blank (Args.kwargs a), Raise (ValueError "No var_names or groups specified.")))
    as Hrun.
  { apply velocity_selection_raises. rewrite Hvar.
    apply select_var_names_no_source. unfold valid_groupby.
    destruct (Args.groupby a) as [|key|]; [done| |done].
    by rewrite (Hgroupby key). }
  split; [exact Hrun|]. by rewrite Hrun.
Qed.

(** C10. In group-ranking mode with a requested subset none of whose tokens
    occurs in any group label, the call raises an arithmetic error from
    [int(10 / idx.sum())] with [idx.sum() = 0] (the numpy quotient is
    infinite and its conversion to an integer raises [OverflowError]),
    before anything is drawn. *)
Theorem no_matching_group_raises (adata : AnnData.t num) (a : Args.t)
    (key : string) (categories : list string) :
  Args.groupby a = PyStr key →
  AnnData.obs adata !! key = Some (Categorical categories) →
  Args.groups a ≠ PyNone →
  (∀ label, label ∈ categories → ¬ matches (tokens_of (Args.groups a)) label) →
  ∃ e, velocity rank_velocity_genes second_order_moments adata a
       = (blank (Args.kwargs a), Raise e)
    ∧ e = OverflowError
    ∧ is_ArithmeticError e = true
    ∧ drawn (velocity rank_velocity_genes second_order_moments adata a).1 = [].
Proof.
  intros Hgroupby Hcol Hgroups Hnone.
  assert (filter (matches (tokens_of (Args.groups a))) categories = []) as Hfilter.
  { clear Hcol. induction categories as [|c cs IH]; [done|].
    rewrite filter_cons_False by (apply Hnone; left).
    apply IH. intros label Hin. apply Hnone. by right. }
  assert (velocity rank_velocity_genes second_order_moments adata a
          = (blank (Args.kwargs a), Raise OverflowError)) as Hrun.
  { apply velocity_selection_raises. rewrite Hgroupby.
    by apply (select_var_names_no_match _ _ _ _ _ _ categories). }
  exists OverflowError. split; [exact Hrun|]. split; [done|]. split; [done|].
  by rewrite Hrun.
Qed.

(** *** The panels of one gene *)


Lemma loop_events_lookup (adata : AnnData.t num) (a : Args.t) (skey : string)
    (s u : string → nat → num) (layers fits stochastic_fits : list string)
    (P : Z) (n_var : nat) (var_names : list string) (kw : Kwargs) (v i : nat)
    (var : string) :
  var_names !! i = Some var →
  ∃ kw',
    loop_events second_order_moments adata a skey s u layers fits stochastic_fits
      P n_var kw v var_names !! i
    = Some (gene_events second_order_moments adata a skey s u layers fits stochastic_fits
              P n_var kw' (v + i) var).
Proof.
  revert kw v i. induction var_names as [|var0 rest IH]; intros kw v i Hi; [done|].
  destruct i as [|i]; simpl in *.
  - injection Hi as ->. exists kw. by rewrite Nat.add_0_r.
  - destruct (IH (kwargs_after a kw) (S v) i Hi) as [kw' Hkw'].
    exists kw'. rewrite Hkw'. do 2 f_equal. lia.
Qed.

Lemma layer_events_length (skey : string) (layers : list string) (P : Z) (kw : Kwargs)
    (v : nat) (var : string) (l0 : nat) :
  length (layer_events (num := num) skey layers P kw v var l0) = length layers.
Proof. unfold layer_events. apply length_imap. Qed.



Lemma gene_events_stochastic (adata : AnnData.t num) (a : Args.t) (skey : string)
    (s u : string → nat → num) (layers fits stochastic_fits : list string)
    (P : Z) (n_var : nat) (kw : Kwargs) (v : nat) (var : string) :
  is_stochastic (Args.mode a) = true →
  gene_events second_order_moments adata a skey s u layers fits stochastic_fits
    P n_var kw v var !! S (length layers)
  = head (stochastic_events second_order_moments adata (s var) (u var) layers
            stochastic_fits P (default_labels kw) v var).
Proof.
  intros Hmode. unfold gene_events. rewrite Hmode. simpl.
  rewrite lookup_app_r by (rewrite layer_events_length; lia).
  rewrite layer_events_length, Nat.sub_diag. reflexivity.
Qed.



(** *** The lines on a stochastic panel *)

Lemma elem_of_concat_lookup {A} (blocks : list (list A)) (i : nat) (block : list A) (x : A) :
  blocks !! i = Some block → x ∈ block → x ∈ concat blocks.
Proof.
  revert i. induction blocks as [|b blocks IH]; intros i Hi Hx; [done|].
  simpl. apply elem_of_app. destruct i as [|i]; simpl in Hi.
  - injection Hi as ->. by left.
  - right. by eapply IH.
Qed.









Lemma linspace_length (start stop : num) : length (linspace start stop) = 50%nat.
Proof. unfold linspace. by rewrite length_app, length_fmap, length_seq. Qed.

Lemma linspace_last (start stop : num) : last (linspace start stop) = Some stop.
Proof. unfold linspace. apply last_snoc. Qed.

(** *** The first stochastic-capable fit *)

Lemma stochastic_fits_first (adata : AnnData.t num) (pre post : list string)
    (fit : string) :
  Forall (λ f, "variance_" +:+ f ∉ layer_keys adata) pre →
  "variance_" +:+ fit ∈ layer_keys adata →
  stochastic_fits adata (pre ++ fit :: post) = fit :: stochastic_fits adata post.
Proof.
  intros Hpre Hfit. unfold stochastic_fits. rewrite filter_app.
  rewrite filter_cons_True by done.
  replace (filter _ pre) with (@nil string); [done|].
  induction Hpre as [|f pre Hf Hpre IH]; [done|].
  by rewrite filter_cons_False.
Qed.

Lemma operand_value_var_series_or (adata : AnnData.t num) (key var : string)
    (fallback : Z) :
  operand_value (var_series_or adata key var fallback)
  = from_option (λ column, column var) (of_int fallback) (AnnData.var adata !! key).
Proof. unfold var_series_or. by destruct (AnnData.var adata !! key). Qed.

(** In stochastic mode, with a Series for [offset] or [beta] and another
    number of cells than one, the iteration for a gene draws the phase
    portrait and the layer panels and then raises [ValueError] at line 147. *)
Lemma gene_panels_series_raises (adata : AnnData.t num) (a : Args.t) (skey ukey : string)
    (s u : string → nat → num) (layers fits : list string) (fit : string)
    (rest : list string) (n_var v : nat) (var : string) (fig : Figure num) :
  let P := nplts layers (Args.mode a) in
  var ∈ AnnData.var_names adata →
  alist_get skey (AnnData.layers adata) = Some s →
  alist_get ukey (AnnData.layers adata) = Some u →
  collides (portrait_keywords ++ layer_keywords) (kwargs fig) = false →
  is_stochastic (Args.mode a) = true →
  AnnData.n_obs adata ≠ 1%nat →
  in_var_keys adata (fit +:+ "_offset") ∨ in_var_keys adata (fit +:+ "_beta") →
  (Z.of_nat v + 1) * P ≤ cells_of_grid fig →
  ∃ fig' msg,
    gene_panels second_order_moments adata a skey ukey layers fits (fit :: rest)
      P n_var v var fig
    = (fig', Raise (ValueError msg))
    ∧ drawn fig'
      = drawn fig
        ++ PhasePortrait (Z.of_nat v * P) var fits (legend_loc_lines a n_var v)
             (default_labels (kwargs fig))
           :: layer_events skey layers P (default_labels (kwargs fig)) v var 0.
Proof.
  intros P Hvar Hs Hu Hkw Hmode Hobs Hseries Hgrid.
  rewrite collides_app in Hkw. apply orb_false_elim in Hkw as [Hportrait Hlayer].
  assert (P = 3 + Z.of_nat (length layers)) as HP
    by (unfold P; rewrite nplts_eq, Hmode; lia).
  unfold gene_panels.
  rewrite decide_True by done.
  rewrite (layer_of_present _ _ var _ Hs), (layer_of_present _ _ var _ Hu).
  erewrite bind_Ok; [|reflexivity].
  erewrite bind_Ok; [|reflexivity].
  erewrite bind_Ok; [|reflexivity].
  erewrite bind_Ok; [|apply subplot_in_grid; nia].
  erewrite bind_Ok; [|reflexivity].
  erewrite bind_Ok; last first.
  { apply scatter_run. simpl kwargs.
    by rewrite collides_default_labels by apply passed_by_name_portrait. }
  match goal with |- context [mbind _ _ ?f] => set (fig1 := f) end.
  destruct (layer_panels_run skey P v var layers 0 fig1)
    as (fig2 & Hrun2 & Hgs2 & Hkw2 & Hdrawn2); [nia| | |].
  { unfold fig1. simpl kwargs.
    by rewrite collides_default_labels by apply passed_by_name_layer. }
  { unfold fig1, cells_of_grid in *. simpl. nia. }
  unfold layer_panels. erewrite bind_Ok; [|exact Hrun2].
  rewrite Hmode. unfold stochastic_panel.
  destruct (second_order_moments adata var) as [ss us].
  destruct (corrected_ys_raises adata (s var) (u var) us
              (fit_offset adata fit var) (fit_beta adata fit var) Hobs)
    as [msg Hraise].
  { destruct Hseries as [Hoffset|Hbeta]; [left|right];
      by apply var_series_or_present. }
  eexists _, msg. split.
  - erewrite bind_Ok; [|reflexivity].
    erewrite bind_Ok; last first.
    { apply subplot_in_grid. unfold cells_of_grid in *. rewrite Hgs2. unfold fig1.
      simpl. nia. }
    apply bind_Raise. unfold lift. by rewrite Hraise.
  - simpl. rewrite Hdrawn2. unfold fig1. simpl. by rewrite <- app_assoc.
Qed.

(** C5. In stochastic mode, with [fit] the first entry of the resolved fits
    that has a variance layer: where line 147 can be computed (the fit has
    neither an offset nor a beta column, or there is one cell) the call
    draws for every selected gene the scatter of
    [x = 2 * (ss - s * s) - s] against
    [y = 2 * (us - u * s) + u + 2 * s * offset / beta], cell by cell, with
    that fit's [offset] and [beta], 0 and 1 when the column is absent. Where
    the fit has one of the two columns and there are several cells, the
    column is bound as a one-element Series, line 147 raises [ValueError]
    and the call ends after the first gene's phase portrait and layer
    panels, without any corrected scatter. *)
Theorem corrected_coordinates (adata : AnnData.t num) (a : Args.t)
    (var_names layers fits : list string) (s u : string → nat → num)
    (pre : list string) (fit : string) (post : list string) :
  let keys := abundance_keys adata (Args.use_raw a) in
  let c := default 1 (Args.ncols a) in
  let P := nplts layers (Args.mode a) in
  let n := AnnData.n_obs adata in
  let has_column :=
    in_var_keys adata (fit +:+ "_offset") ∨ in_var_keys adata (fit +:+ "_beta") in
  select_var_names rank_velocity_genes adata (Args.vkey a) (Args.var_names a)
    (Args.groupby a) (Args.groups a) = Ok var_names →
  resolve_layers adata (Args.vkey a) keys.1 (Args.layers a) = Ok layers →
  resolve_fits adata (Args.fits a) = Ok fits →
  1 ≤ c →
  panels_drawable adata a keys.1 keys.2 s u var_names →
  is_stochastic (Args.mode a) = true →
  collides stochastic_keywords (Args.kwargs a) = false →
  fits = pre ++ fit :: post →
  Forall (λ f, "variance_" +:+ f ∉ layer_keys adata) pre →
  "variance_" +:+ fit ∈ layer_keys adata →
  n ≠ 0%nat →
  (n = 1%nat ∨ ¬ has_column →
   ∃ fig,
     velocity rank_velocity_genes second_order_moments adata a = (fig, Ok ())
     ∧ ∀ (v : nat) (var : string),
         var_names !! v = Some var →
         let s := s var in
         let u := u var in
         let ss := (second_order_moments adata var).1 in
         let us := (second_order_moments adata var).2 in
         let offset := from_option (λ column, column var) (of_int 0)
                         (AnnData.var adata !! (fit +:+ "_offset")) in
         let beta := from_option (λ column, column var) (of_int 1)
                       (AnnData.var adata !! (fit +:+ "_beta")) in
         let x := (λ i, sub (mul (of_int 2) (sub (ss i) (mul (s i) (s i)))) (s i))
                    <$> seq 0 n in
         let y := (λ i, add (add (mul (of_int 2) (sub (us i) (mul (u i) (s i)))) (u i))
                            (div (mul (mul (of_int 2) (s i)) offset) beta))
                    <$> seq 0 n in
         ∃ kw,
           CorrectedScatter (Z.of_nat v * P + Z.of_nat (length layers) + 1) var x y kw
           ∈ drawn fig)
  ∧ (n ≠ 1%nat → has_column →
     ∃ fig msg,
       velocity rank_velocity_genes second_order_moments adata a
       = (fig, Raise (ValueError msg))
       ∧ length (drawn fig) = S (length layers)
       ∧ ∀ ax var x y kw, CorrectedScatter ax var x y kw ∉ drawn fig).
Proof.
  intros keys c P n has_column Hsel Hlayers Hfits Hc Hpanels Hmode Hkws
    Hsplit Hpre Hfit Hobs.
  assert (stochastic_fits adata fits = fit :: stochastic_fits adata post) as Hfirst.
  { rewrite Hsplit. by apply stochastic_fits_first. }
  split.
  - intros Hcase.
    assert (drawable adata a keys.1 keys.2 s u var_names (stochastic_fits adata fits))
      as Hdrawable.
    { split; [done|]. intros _. split; [done|]. split; [done|].
      eexists _, _. split; [exact Hfirst|].
      destruct Hcase as [Hone|Hnone]; [by left|right].
      split; intros Hin; apply Hnone; [by left | by right]. }
    destruct (velocity_run adata a var_names layers fits s u Hsel Hlayers Hfits Hc Hdrawable)
      as (fig & Hrun & Hgs & Hdrawn).
    exists fig. split; [exact Hrun|].
    intros v var Hv. cbv zeta.
    destruct (loop_events_lookup adata a keys.1 s u layers fits (stochastic_fits adata fits)
                P (length var_names) var_names (pop_colors (Args.kwargs a)) 0 v var Hv)
      as [kw Hblock].
    change (0 + v)%nat with v in Hblock.
    eexists. rewrite Hdrawn. fold keys P.
    eapply elem_of_concat_lookup; [exact Hblock|].
    eapply list_elem_of_lookup_2.
    rewrite gene_events_stochastic by done.
    unfold stochastic_events. rewrite Hfirst. simpl head. simpl default.
    unfold fit_offset, fit_beta. rewrite !operand_value_var_series_or.
    reflexivity.
  - intros Hmany Hcolumn.
    destruct Hpanels as (Hne & Hgenes & Hs & Hu & Hkw).
    destruct var_names as [|var rest]; [done|].
    apply Forall_cons in Hgenes as [Hvar _].
    rewrite (velocity_unfold adata a (var :: rest) layers fits Hsel Hlayers Hfits)
      by (done || (fold c; lia)).
    fold keys c P. rewrite Hfirst.
    match goal with |- context [for_enumerate _ _ _ ?f] => set (fig0 := f) end.
    destruct (gene_panels_series_raises adata a keys.1 keys.2 s u layers fits fit
                (stochastic_fits adata post) (length (var :: rest)) 0 var fig0 Hvar Hs Hu)
      as (fig & msg & Hrun & Hdrawn); [|done|done|done|..].
    { unfold fig0. simpl kwargs. rewrite collides_pop_colors; [done|].
      by apply (bool_decide_unpack _). }
    { fold P. unfold fig0, cells_of_grid. simpl gs. simpl fst. simpl snd.
      assert (P = 3 + Z.of_nat (length layers)) as HP
        by (unfold P; rewrite nplts_eq, Hmode; lia).
      pose proof (ceil_div_spec (Z.of_nat (length (var :: rest))) c) as Hceil.
      simpl length in *. nia. }
    exists fig, msg. split; [apply bind_Raise; exact Hrun|].
    rewrite Hdrawn. unfold fig0. simpl drawn. rewrite app_nil_l.
    split.
    + simpl. by rewrite layer_events_length.
    + intros ax var' x y kw [Hin|Hin]%elem_of_cons; [done|].
      unfold layer_events in Hin.
      apply elem_of_lookup_imap in Hin as (l & layer & Heq & _). done.
Qed.



End Call.

(** * Concrete runs *)

(** C1, the claim as stated fails: with genes A, B, C the single string "D"
    is selected as it is, where filtering the one-element list would leave
    nothing. *)
Lemma explicit_string_kept_unfiltered :
  select_var_names demo_rank abc_adata "velocity" (PyStr "D") PyNone PyNone
  ≠ Ok (stable_dedup
          (filter (λ var, var ∈ AnnData.var_names abc_adata) (tokens_of (PyStr "D")))).
Proof. intros Heq. vm_compute in Heq. discriminate. Qed.

(** Genes A, B, C and the input [B, B, D, A] select [B, A]; the string "D"
    selects [D]. *)
Lemma explicit_var_names_selection_witness :
  select_var_names demo_rank abc_adata "velocity" (PyList ["B"; "B"; "D"; "A"]) PyNone PyNone
  = Ok ["B"; "A"]
  ∧ select_var_names demo_rank abc_adata "velocity" (PyStr "D") PyNone PyNone = Ok ["D"].
Proof.
  exact (explicit_var_names_selection demo_rank abc_adata "velocity" PyNone PyNone
           ["B"; "B"; "D"; "A"] "D" eq_refl).
Defined.

(** C3, the claim as stated fails: the default [fits] already names
    "dynamics", and the resolved list holds it twice. *)
Lemma default_fits_dynamics_twice :
  ¬ ∃ fits, resolve_fits abc_adata (Args.fits Args.default) = Ok fits
      ∧ occurrences "dynamics" fits = 1%nat.
Proof.
  intros (fits & Hfits & Hcount). vm_compute in Hfits.
  injection Hfits as <-. vm_compute in Hcount. discriminate.
Qed.

(** C4, the code at a failing input: a dataset without any variance layer,
    one gene, stochastic mode. No fit is stochastic-capable, line 141 indexes
    the empty list and the call ends in [IndexError] after the gene's phase
    portrait and layer panels have been drawn. *)
Theorem stochastic_without_capable_fit_raises :
  stochastic_fits abc_adata ["velocity"; "dynamics"; "dynamics"] = []
  ∧ ∃ fig,
      velocity demo_rank demo_moments abc_adata (call (PyList ["A"]) (PyStr "stochastic") None)
      = (fig, Raise IndexError)
      ∧ gs fig = (1, 5)
      ∧ drawn fig
        = [PhasePortrait 0 "A" ["velocity"; "dynamics"; "dynamics"] "none"
             {["xlabel" := "spliced"; "ylabel" := "unspliced"]};
           Embedding 1 "A" "velocity" "velocity"
             {["xlabel" := "spliced"; "ylabel" := "unspliced"]};
           Embedding 2 "A" "spliced" "expression"
             {["xlabel" := "spliced"; "ylabel" := "unspliced"]}].
Proof.
  split; [by vm_compute|]. eexists. split; [by vm_compute|]. split; by vm_compute.
Qed.

(** The stochastic call used below: genes B, D, A on two columns of genes. *)
Lemma stochastic_call_panels_drawable :
  panels_drawable stochastic_adata
    (call (PyList ["B"; "B"; "D"; "A"]) (PyStr "stochastic") (Some 2))
    "spliced" "unspliced" (λ _ _, 1%Q) (λ _ _, 1%Q) ["B"; "D"; "A"].
Proof.
  split; [discriminate|]. split; [by apply (bool_decide_unpack _)|].
  split; [reflexivity|]. split; reflexivity.
Qed.



(** Gene A of the dataset whose velocity fit stored an offset. *)
Lemma offset_call_panels_drawable :
  panels_drawable offset_adata (call (PyList ["A"]) (PyStr "stochastic") None)
    "spliced" "unspliced" (λ _ _, 1%Q) (λ _ _, 1%Q) ["A"].
Proof.
  split; [discriminate|]. split; [by apply (bool_decide_unpack _)|].
  split; [reflexivity|]. split; reflexivity.
Qed.

Lemma dynamical_call_panels_drawable :
  panels_drawable dynamical_adata (call (PyList ["A"]) (PyStr "stochastic") None)
    "spliced" "unspliced" (λ _ _, 1%Q) (λ _ _, 1%Q) ["A"].
Proof.
  split; [discriminate|]. split; [by apply (bool_decide_unpack _)|].
  split; [reflexivity|]. split; reflexivity.
Qed.


(** All values 1 and a first fit without offset and beta columns:
    [x = -1] and [y = 1] in both cells. With an offset column on the first
    fit and two cells, the call ends in [ValueError] after the phase portrait
    and the two layer panels. Where the offset column belongs to the fit
    'velocity', which has no variance layer, the parameters are those of
    'dynamics', the first fit that has one: the call returns, with offset 0. *)
Lemma corrected_coordinates_witness :
  (∃ fig,
     velocity demo_rank demo_moments stochastic_adata
       (call (PyList ["B"; "B"; "D"; "A"]) (PyStr "stochastic") (Some 2))
     = (fig, Ok ())
     ∧ ∃ kw, CorrectedScatter 3 "B" [(-1)%Q; (-1)%Q] [1%Q; 1%Q] kw ∈ drawn fig)
  ∧ (∃ fig msg,
       velocity demo_rank demo_moments offset_adata
         (call (PyList ["A"]) (PyStr "stochastic") None)
       = (fig, Raise (ValueError msg))
       ∧ length (drawn fig) = 3%nat
       ∧ ∀ ax var x y kw, CorrectedScatter ax var x y kw ∉ drawn fig)
  ∧ (∃ fig,
       velocity demo_rank demo_moments dynamical_adata
         (call (PyList ["A"]) (PyStr "stochastic") None)
       = (fig, Ok ())
       ∧ ∃ kw, CorrectedScatter 3 "A" [(-1)%Q; (-1)%Q] [1%Q; 1%Q] kw ∈ drawn fig).
Proof.
  split; [|split].
  - destruct (corrected_coordinates demo_rank demo_moments stochastic_adata
                (call (PyList ["B"; "B"; "D"; "A"]) (PyStr "stochastic") (Some 2))
                ["B"; "D"; "A"] ["velocity"; "spliced"] ["velocity"; "dynamics"; "dynamics"]
                (λ _ _, 1%Q) (λ _ _, 1%Q) [] "velocity" ["dynamics"; "dynamics"]
                eq_refl eq_refl eq_refl ltac:(simpl; lia) stochastic_call_panels_drawable
                eq_refl eq_refl eq_refl ltac:(constructor)
                ltac:(by apply (bool_decide_unpack _)) ltac:(discriminate))
      as [Hcomputed _].
    destruct Hcomputed as (fig & Hrun & Hscatter).
    { right. intros [[column Hcolumn]|[column Hcolumn]];
        vm_compute in Hcolumn; discriminate. }
    exists fig. split; [exact Hrun|]. exact (Hscatter 0%nat "B" eq_refl).
  - destruct (corrected_coordinates demo_rank demo_moments offset_adata
                (call (PyList ["A"]) (PyStr "stochastic") None)
                ["A"] ["velocity"; "spliced"] ["velocity"; "dynamics"; "dynamics"]
                (λ _ _, 1%Q) (λ _ _, 1%Q) [] "velocity" ["dynamics"; "dynamics"]
                eq_refl eq_refl eq_refl ltac:(simpl; lia) offset_call_panels_drawable
                eq_refl eq_refl eq_refl ltac:(constructor)
                ltac:(by apply (bool_decide_unpack _)) ltac:(discriminate))
      as [_ Hraises].
    apply Hraises; [discriminate|]. left. by eexists.
  - destruct (corrected_coordinates demo_rank demo_moments dynamical_adata
                (call (PyList ["A"]) (PyStr "stochastic") None)
                ["A"] ["velocity"; "spliced"] ["velocity"; "dynamics"; "dynamics"]
                (λ _ _, 1%Q) (λ _ _, 1%Q) ["velocity"] "dynamics" ["dynamics"]
                eq_refl eq_refl eq_refl ltac:(simpl; lia) dynamical_call_panels_drawable
                eq_refl eq_refl eq_refl
                ltac:(by apply (bool_decide_unpack _))
                ltac:(by apply (bool_decide_unpack _)) ltac:(discriminate))
      as [Hcomputed _].
    destruct Hcomputed as (fig & Hrun & Hscatter).
    { right. intros [[column Hcolumn]|[column Hcolumn]];
        vm_compute in Hcolumn; discriminate. }
    exists fig. split; [exact Hrun|]. exact (Hscatter 0%nat "A" eq_refl).
Defined.

(** The same numbers in binary64: [2 * (1 - 1 * 1) - 1] and
    [2 * (1 - 1 * 1) + 1 + 2 * 1 * 0 / 1] round nowhere. *)
Lemma corrected_coordinates_binary64 :
  corrected_x (num := PrimFloat.float) (of_int 1) (of_int 1) = of_int (-1)
  ∧ corrected_y (num := PrimFloat.float)
      (of_int 1) (of_int 1) (of_int 1) (of_int 0) (of_int 1) = of_int 1.
Proof. by vm_compute. Qed.

(** The ranking of [demo_rank]: without a subset the first gene of each of
    the three groups; with the tokens "al" and "be", two matching groups
    and five genes of each. *)
Lemma group_ranking_selection_witness :
  (var_names_raw demo_rank stochastic_adata "velocity" PyNone (PyStr "clusters") PyNone
   = Ok ["B"; "B"; "C"]
   ∧ select_var_names demo_rank stochastic_adata "velocity" PyNone (PyStr "clusters") PyNone
     = Ok ["B"; "C"])
  ∧ (var_names_raw demo_rank stochastic_adata "velocity" PyNone (PyStr "clusters")
       (PyList ["al"; "be"])
     = Ok ["B"; "A"; "C"; "D"; "E"; "B"; "C"; "A"; "F"; "E"]
     ∧ select_var_names demo_rank stochastic_adata "velocity" PyNone (PyStr "clusters")
         (PyList ["al"; "be"])
       = Ok ["B"; "A"; "C"; "D"; "E"; "F"]).
Proof.
  destruct (group_ranking_selection demo_rank stochastic_adata "velocity" "clusters" PyNone
              (Categorical ["alpha"; "beta"; "gamma"]) eq_refl) as [Hall Hsubset].
  split.
  - exact (Hall ["B"; "B"; "C"] ltac:(discriminate) eq_refl).
  - exact (Hsubset (PyList ["al"; "be"]) ["alpha"; "beta"; "gamma"]
             ltac:(discriminate) eq_refl eq_refl ltac:(vm_compute; lia)).
Defined.




(** No gene names and a grouping key that is not an annotation. *)
Lemma no_gene_source_raises_witness :
  velocity demo_rank demo_moments abc_adata (call_groups (PyStr "louvain") PyNone)
  = (blank (Args.kwargs Args.default),
     Raise (ValueError "No var_names or groups specified."))
  ∧ drawn (velocity demo_rank demo_moments abc_adata
             (call_groups (PyStr "louvain") PyNone)).1 = [].
Proof.
  apply (no_gene_source_raises demo_rank demo_moments abc_adata
           (call_groups (PyStr "louvain") PyNone) eq_refl).
  intros key [= <-]. reflexivity.
Defined.

(** The groups alpha, beta, gamma and the requested subset [delta]. *)
Lemma no_matching_group_raises_witness :
  ∃ e,
    velocity demo_rank demo_moments stochastic_adata
      (call_groups (PyStr "clusters") (PyList ["delta"]))
    = (blank (Args.kwargs Args.default), Raise e)
    ∧ e = OverflowError
    ∧ is_ArithmeticError e = true
    ∧ drawn (velocity demo_rank demo_moments stochastic_adata
               (call_groups (PyStr "clusters") (PyList ["delta"]))).1 = [].
Proof.
  apply (no_matching_group_raises demo_rank demo_moments stochastic_adata
           (call_groups (PyStr "clusters") (PyList ["delta"]))
           "clusters" ["alpha"; "beta"; "gamma"] eq_refl eq_refl);
    [discriminate|].
  apply Forall_forall. by apply (bool_decide_unpack _).
Defined.

(** * Further properties of the call *)

(** ** Resolution of layers and fits *)

Lemma chars_length (s c : string) : c ∈ chars s → String.length c = 1%nat.
Proof.
  induction s as [|a s IH]; simpl; [by intros ?%elem_of_nil|].
  intros [->|Hin]%elem_of_cons; [done | by apply IH].
Qed.

Lemma filter_ext_in {A} (P Q : A → Prop) `{!∀ x, Decision (P x), !∀ x, Decision (Q x)}
    (l : list A) :
  (∀ x, x ∈ l → P x ↔ Q x) → filter P l = filter Q l.
Proof.
  induction l as [|x l IH]; intros Hext; [done|].
  rewrite !filter_cons.
  rewrite IH by (intros y Hy; apply Hext; by right).
  destruct (decide (P x)) as [HP|HP], (decide (Q x)) as [HQ|HQ]; try done.
  - exfalso. apply HQ. apply Hext; [by left | done].
  - exfalso. apply HP. apply Hext; [by left | done].
Qed.

Lemma alist_get_None {V} (key : string) (l : list (string * V)) :
  alist_get key l = None ↔ key ∉ l.*1.
Proof.
  induction l as [|[k v] l IH]; simpl.
  - split; [intros _ ?%elem_of_nil; done | done].
  - destruct (decide (k = key)) as [->|Hk].
    + split; [done | intros Hnot; exfalso; apply Hnot; by left].
    + rewrite IH, not_elem_of_cons. naive_solver.
Qed.

Section Resolution.
Context {num : Type} `{Arith num}.

(** [layers] given as one string other than 'all' is iterated character by
    character (lines 91-92). On a dataset without one-character layer names
    only the characters "X" survive, so naming a single layer as a string
    selects no panel for it. *)
Theorem layers_string_by_character (adata : AnnData.t num) (vkey skey s : string) :
  s ≠ "all" →
  (∀ key, key ∈ layer_keys adata → String.length key ≠ 1%nat) →
  resolve_layers adata vkey skey (PyStr s) = Ok (filter (λ c, c = "X") (chars s)).
Proof.
  intros Hall Hkeys. unfold resolve_layers.
  rewrite decide_False by congruence. simpl. f_equal.
  apply filter_ext_in. intros c Hc%chars_length. split; [|by right].
  intros [Hkey|HX]; [|done]. by apply Hkeys in Hkey.
Qed.

(** [fits] given as one string other than 'all' is iterated character by
    character as well (lines 94-95): unless a one-character fit has a gamma
    column, the resolved list is just the appended "dynamics". *)
Theorem fits_string_by_character (adata : AnnData.t num) (s : string) :
  s ≠ "all" →
  (∀ c, String.length c = 1%nat → ¬ in_var_keys adata (c +:+ "_gamma")) →
  resolve_fits adata (PyStr s) = Ok ["dynamics"].
Proof.
  intros Hall Hgamma. unfold resolve_fits.
  rewrite decide_False by congruence. simpl. f_equal.
  rewrite (filter_ext_in _ (λ _, False)); last first.
  { intros c Hc%chars_length. split; [|done].
    intros [->|Hkey]; [done|]. by apply (Hgamma c). }
  by induction (chars s).
Qed.

(** Requested layers are resolved without an exception (lines 91-92): what
    remains is the request in its order, less the names that are neither a
    layer of the dataset nor "X". *)
Theorem resolve_layers_list (adata : AnnData.t num) (vkey skey : string) (l : list string) :
  ∃ layers,
    resolve_layers adata vkey skey (PyList l) = Ok layers
    ∧ layers `sublist_of` l
    ∧ (∀ layer, layer ∈ layers ↔ layer ∈ l ∧ (layer ∈ layer_keys adata ∨ layer = "X"))
    ∧ (length layers ≤ length l)%nat.
Proof.
  eexists. split; [reflexivity|]. split; [apply sublist_filter|]. split.
  - intros layer. rewrite list_elem_of_filter. tauto.
  - apply length_filter.
Qed.

(** Every resolved fit is "dynamics" or has a gamma column, and every
    stochastic-capable fit is a resolved fit with a variance layer
    (lines 94-96). With [fits='all'] the candidates are the layer names. *)
Theorem resolved_fits_have_parameters (adata : AnnData.t num) (fits : PyArg)
    (resolved : list string) :
  resolve_fits adata fits = Ok resolved →
  Forall (λ fit, fit = "dynamics" ∨ in_var_keys adata (fit +:+ "_gamma")) resolved
  ∧ Forall (λ fit, fit ∈ resolved ∧ "variance_" +:+ fit ∈ layer_keys adata)
      (stochastic_fits adata resolved)
  ∧ stochastic_fits adata resolved `sublist_of` resolved
  ∧ (fits = PyStr "all" →
     ∀ fit, fit ∈ resolved → fit = "dynamics" ∨ fit ∈ layer_keys adata).
Proof.
  unfold resolve_fits. intros Hres.
  destruct (if decide (fits = PyStr "all") then Ok (layer_keys adata) else iterate fits)
    as [candidates|e] eqn:Hcand; [|done].
  simpl in Hres. injection Hres as <-.
  split; [|split; [|split]].
  - apply Forall_app. split; [|by repeat constructor; left].
    apply Forall_forall. intros fit. rewrite list_elem_of_filter. tauto.
  - apply Forall_forall. intros fit. unfold stochastic_fits.
    rewrite list_elem_of_filter. tauto.
  - apply sublist_filter.
  - intros ->. rewrite decide_True in Hcand by done. injection Hcand as <-.
    intros fit [Hin|Hdyn]%elem_of_app.
    + apply list_elem_of_filter in Hin. tauto.
    + left. by apply list_elem_of_singleton in Hdyn.
Qed.

End Resolution.

(** ** More on gene selection *)

Section MoreSelection.
Context {num : Type} `{Arith num}.
Variable rank_velocity_genes : AnnData.t num → string → nat → string → Ranking.

(** Lines 81-83 for a requested subset with at least one matching group. *)
Lemma var_names_raw_subset (adata : AnnData.t num) (vkey key : string)
    (var_names groups : PyArg) (categories : list string) :
  let names := rank_names (ranking rank_velocity_genes adata vkey key) in
  let m := length (filter (matches (tokens_of groups)) categories) in
  AnnData.obs adata !! key = Some (Categorical categories) →
  groups ≠ PyNone →
  length categories = length names →
  (1 ≤ m)%nat →
  var_names_raw rank_velocity_genes adata vkey var_names (PyStr key) groups
  = Ok (concat ((λ gr, take (10 `div` m) gr.2)
                  <$> filter (λ gr, matches (tokens_of groups) gr.1)
                        (zip categories names))).
Proof.
  intros names m Hcol Hgroups Hlen Hm.
  rewrite (var_names_raw_groups _ _ _ _ _ _ _ Hcol Hgroups). fold names. cbv zeta.
  rewrite mask_sum_group_mask. fold m.
  rewrite int_10_div_pos, result_bind_Ok by done.
  assert (length (group_mask (tokens_of groups) categories) = length names) as Hmask.
  { unfold group_mask. by rewrite length_fmap. }
  unfold index_mask_upto. rewrite decide_True, result_bind_Ok by done.
  rewrite mask_rows_group_mask, <- list_fmap_compose.
  apply hstack_nonempty. intros Hnil%(f_equal length).
  rewrite length_fmap, length_filter_zip_fst in Hnil by done.
  fold m in Hnil. simpl in Hnil. lia.
Qed.

(** [int(10 / m)] is 0 from eleven matching groups on (line 83): every
    matching group contributes no gene and the selection is empty. *)
Theorem many_matching_groups_select_nothing (adata : AnnData.t num) (vkey key : string)
    (var_names groups : PyArg) (categories : list string) :
  AnnData.obs adata !! key = Some (Categorical categories) →
  groups ≠ PyNone →
  length categories = length (rank_names (ranking rank_velocity_genes adata vkey key)) →
  (11 ≤ length (filter (matches (tokens_of groups)) categories))%nat →
  select_var_names rank_velocity_genes adata vkey var_names (PyStr key) groups = Ok [].
Proof.
  intros Hcol Hgroups Hlen Hm. unfold select_var_names.
  rewrite (var_names_raw_subset adata vkey key var_names groups categories Hcol Hgroups Hlen)
    by lia.
  rewrite Nat.div_small by lia. simpl. f_equal.
  match goal with |- unique (concat (_ <$> ?l)) = _ => generalize l end.
  intros matching. induction matching as [|gr matching IH]; [done|].
  rewrite fmap_cons. simpl concat. exact IH.
Qed.

(** Whatever the mode of selection, a selection is free of duplicates
    (line 88); in explicit-list mode it is moreover the request in its
    order, restricted to the gene axis (line 85). *)
Theorem selection_duplicate_free (adata : AnnData.t num) (vkey : string)
    (var_names groupby groups : PyArg) (selected : list string) :
  select_var_names rank_velocity_genes adata vkey var_names groupby groups = Ok selected →
  NoDup selected
  ∧ (∀ l, valid_groupby adata groupby = None → var_names = PyList l →
       selected `sublist_of` l
       ∧ ∀ var, var ∈ selected ↔ var ∈ l ∧ var ∈ AnnData.var_names adata).
Proof.
  unfold select_var_names. intros Hsel.
  destruct (var_names_raw rank_velocity_genes adata vkey var_names groupby groups)
    as [raw|e] eqn:Hraw; [|done].
  simpl in Hsel. injection Hsel as <-.
  split; [apply unique_NoDup|].
  intros l Hgroupby ->. unfold var_names_raw in Hraw. rewrite Hgroupby in Hraw.
  injection Hraw as <-. split.
  - etrans; [apply unique_sublist | apply sublist_filter].
  - intros var. rewrite unique_elem_of, list_elem_of_filter. tauto.
Qed.

(** The ranking collaborator is consulted only in group-ranking mode and
    only when no ranking is cached for the requested key (lines 74-76):
    otherwise the selection is the same whatever the collaborator would
    return. *)
Theorem ranking_only_when_needed (other : AnnData.t num → string → nat → string → Ranking)
    (adata : AnnData.t num) (vkey : string) (var_names groupby groups : PyArg) :
  valid_groupby adata groupby = None
  ∨ (∃ key r, groupby = PyStr key
        ∧ AnnData.uns_rank_velocity_genes adata = Some r
        ∧ rank_groupby r = key) →
  select_var_names rank_velocity_genes adata vkey var_names groupby groups
  = select_var_names other adata vkey var_names groupby groups.
Proof.
  intros [Hnone|(key & r & -> & Hcache & Hkey)];
    unfold select_var_names, var_names_raw.
  - by rewrite Hnone.
  - assert (∀ rank, ranking rank adata vkey key = r) as Hranking.
    { intros rank. unfold ranking. rewrite Hcache. by rewrite decide_False by auto. }
    unfold valid_groupby. destruct (AnnData.obs adata !! key) as [col|]; [|done].
    simpl. by rewrite !Hranking.
Qed.

End MoreSelection.

(** ** Exceptions and degenerate calls *)

Lemma alist_get_elem_of {V} (key : string) (l : list (string * V)) :
  key ∈ l.*1 → ∃ v, alist_get key l = Some v.
Proof.
  intros Hin. destruct (alist_get key l) as [v|] eqn:Hget; [by exists v|].
  by apply alist_get_None in Hget.
Qed.

Section MoreCall.
Context {num : Type} `{Arith num}.
Variable rank_velocity_genes : AnnData.t num → string → nat → string → Ranking.
Variable second_order_moments : AnnData.t num → string → (nat → num) * (nat → num).

(** With a valid grouping key the argument [var_names] is never read
    (lines 74-84): the call does the same whatever is passed for it. *)
Theorem groupby_overrides_var_names (adata : AnnData.t num) (a : Args.t)
    (var_names : PyArg) :
  is_Some (valid_groupby adata (Args.groupby a)) →
  velocity rank_velocity_genes second_order_moments adata (with_var_names var_names a)
  = velocity rank_velocity_genes second_order_moments adata a.
Proof.
  intros [[key col] Hvalid].
  unfold velocity, velocity_stmts, select_var_names, var_names_raw, gene_panels,
    legend_loc_lines, with_var_names.
  cbn [Args.var_names Args.vkey Args.mode Args.fits Args.layers Args.groupby Args.groups
       Args.use_raw Args.legend_loc Args.ncols Args.kwargs].
  by rewrite Hvalid.
Qed.

(** In a mode other than 'stochastic' the moment collaborator is never
    called (line 138): the call does the same whatever it would return. *)
Theorem moments_only_in_stochastic_mode
    (other : AnnData.t num → string → (nat → num) * (nat → num))
    (adata : AnnData.t num) (a : Args.t) :
  is_stochastic (Args.mode a) = false →
  velocity rank_velocity_genes second_order_moments adata a
  = velocity rank_velocity_genes other adata a.
Proof.
  intros Hmode. unfold velocity, velocity_stmts, gene_panels.
  destruct (is_stochastic (Args.mode a)); [discriminate | reflexivity].
Qed.

(** An empty selection asks for a grid of 0 rows (lines 100-105), which
    [GridSpec] refuses: the call ends in [ValueError] before the loop, with
    no axes made and nothing drawn. *)
Theorem empty_selection_draws_nothing (adata : AnnData.t num) (a : Args.t)
    (layers fits : list string) :
  let keys := abundance_keys adata (Args.use_raw a) in
  select_var_names rank_velocity_genes adata (Args.vkey a) (Args.var_names a)
    (Args.groupby a) (Args.groups a) = Ok [] →
  resolve_layers adata (Args.vkey a) keys.1 (Args.layers a) = Ok layers →
  resolve_fits adata (Args.fits a) = Ok fits →
  1 ≤ default 1 (Args.ncols a) →
  ∃ fig msg,
    velocity rank_velocity_genes second_order_moments adata a
    = (fig, Raise (ValueError msg))
    ∧ gca fig = None
    ∧ drawn fig = [].
Proof.
  intros keys Hsel Hlayers Hfits Hc.
  rewrite (velocity_empty_selection rank_velocity_genes second_order_moments adata a
             layers fits Hsel Hlayers Hfits Hc).
  by eexists _, _.
Qed.

(** [ncols=0] divides by zero at line 100, after selection, layers and fits
    have been resolved and before the figure exists. *)
Theorem zero_ncols_raises (adata : AnnData.t num) (a : Args.t)
    (var_names layers fits : list string) :
  let keys := abundance_keys adata (Args.use_raw a) in
  select_var_names rank_velocity_genes adata (Args.vkey a) (Args.var_names a)
    (Args.groupby a) (Args.groups a) = Ok var_names →
  resolve_layers adata (Args.vkey a) keys.1 (Args.layers a) = Ok layers →
  resolve_fits adata (Args.fits a) = Ok fits →
  Args.ncols a = Some 0 →
  velocity rank_velocity_genes second_order_moments adata a
  = (blank (Args.kwargs a), Raise ZeroDivisionError).
Proof.
  intros keys Hsel Hlayers Hfits Hncols.
  unfold velocity, velocity_stmts.
  unfold lift at 1. rewrite Hsel.
  erewrite bind_Ok; [|reflexivity].
  fold keys. destruct keys as [skey ukey] eqn:Hkeys. simpl in Hlayers.
  rewrite Hlayers, Hfits.
  erewrite bind_Ok; [|reflexivity].
  erewrite bind_Ok; [|reflexivity].
  unfold grid_shape. rewrite Hncols. reflexivity.
Qed.

(** A single string that is not a gene of the dataset is selected all the
    same (line 85) and fails at the slice [adata[:, var]] of line 111,
    before any panel is drawn. *)
Theorem absent_gene_string_raises (adata : AnnData.t num) (a : Args.t)
    (s : string) (layers fits : list string) :
  let keys := abundance_keys adata (Args.use_raw a) in
  valid_groupby adata (Args.groupby a) = None →
  Args.var_names a = PyStr s →
  s ∉ AnnData.var_names adata →
  resolve_layers adata (Args.vkey a) keys.1 (Args.layers a) = Ok layers →
  resolve_fits adata (Args.fits a) = Ok fits →
  1 ≤ default 1 (Args.ncols a) →
  ∃ fig,
    velocity rank_velocity_genes second_order_moments adata a = (fig, Raise (KeyError s))
    ∧ drawn fig = [].
Proof.
  intros keys Hgroupby Hvar Habsent Hlayers Hfits Hc.
  assert (select_var_names rank_velocity_genes adata (Args.vkey a) (Args.var_names a)
            (Args.groupby a) (Args.groups a) = Ok [s]) as Hsel.
  { unfold select_var_names, var_names_raw. by rewrite Hgroupby, Hvar. }
  rewrite (velocity_unfold rank_velocity_genes second_order_moments adata a [s]
             layers fits Hsel Hlayers Hfits Hc) by done.
  eexists. split.
  - apply bind_Raise. unfold gene_panels. rewrite decide_False by done.
    by apply bind_Raise.
  - reflexivity.
Qed.

(** The phase portrait reads the raw layers when [use_raw] is set or no
    layer 'Ms' exists, the smoothed ones otherwise (line 90); the first of
    the two layers that is missing ends the call with [KeyError] at
    line 112, before any panel is drawn. *)
Theorem missing_abundance_layer_raises (adata : AnnData.t num) (a : Args.t)
    (var : string) (rest layers fits : list string) :
  let keys := abundance_keys adata (Args.use_raw a) in
  select_var_names rank_velocity_genes adata (Args.vkey a) (Args.var_names a)
    (Args.groupby a) (Args.groups a) = Ok (var :: rest) →
  resolve_layers adata (Args.vkey a) keys.1 (Args.layers a) = Ok layers →
  resolve_fits adata (Args.fits a) = Ok fits →
  1 ≤ default 1 (Args.ncols a) →
  var ∈ AnnData.var_names adata →
  (keys = if Args.use_raw a || negb (bool_decide ("Ms" ∈ layer_keys adata))
          then ("spliced", "unspliced") else ("Ms", "Mu"))
  ∧ (keys.1 ∉ layer_keys adata →
     ∃ fig,
       velocity rank_velocity_genes second_order_moments adata a
       = (fig, Raise (KeyError keys.1))
       ∧ drawn fig = [])
  ∧ (keys.1 ∈ layer_keys adata →
     keys.2 ∉ layer_keys adata →
     ∃ fig,
       velocity rank_velocity_genes second_order_moments adata a
       = (fig, Raise (KeyError keys.2))
       ∧ drawn fig = []).
Proof.
  intros keys Hsel Hlayers Hfits Hc Hvar.
  split; [reflexivity|].
  rewrite (velocity_unfold rank_velocity_genes second_order_moments adata a (var :: rest)
             layers fits Hsel Hlayers Hfits Hc) by done.
  fold keys. split.
  - intros Hmissing%alist_get_None.
    eexists. split.
    + apply bind_Raise. unfold gene_panels, layer_of. rewrite decide_True by done.
      rewrite Hmissing.
      erewrite bind_Ok; [|reflexivity]. by apply bind_Raise.
    + reflexivity.
  - intros [s Hs]%alist_get_elem_of Hmissing%alist_get_None.
    eexists. split.
    + apply bind_Raise. unfold gene_panels, layer_of. rewrite decide_True by done.
      rewrite Hs, Hmissing.
      erewrite bind_Ok; [|reflexivity].
      erewrite bind_Ok; [|reflexivity]. by apply bind_Raise.
    + reflexivity.
Qed.


(** ** The drawing of a returning call, panel by panel *)



Lemma setdefault_lookup_ne (key key' value : string) (kw : Kwargs) :
  key ≠ key' → setdefault key value kw !! key' = kw !! key'.
Proof. intros Hne. unfold setdefault. destruct (decide _); [done|]. by simplify_map_eq. Qed.



Lemma default_labels_other (key : string) (kw : Kwargs) :
  key ≠ "xlabel" → key ≠ "ylabel" → default_labels kw !! key = kw !! key.
Proof.
  intros Hx Hy. unfold default_labels. by rewrite !setdefault_lookup_ne by done.
Qed.



Lemma stochastic_labels_other (key : string) (kw : Kwargs) :
  key ≠ "xlabel" → key ≠ "ylabel" → stochastic_labels kw !! key = kw !! key.
Proof. intros Hx Hy. unfold stochastic_labels. by simplify_map_eq. Qed.





















Lemma resolve_layers_elem_of (adata : AnnData.t num) (vkey skey : string) (request : PyArg)
    (layers : list string) (layer : string) :
  resolve_layers adata vkey skey request = Ok layers →
  layer ∈ layers →
  layer ∈ layer_keys adata ∨ layer = "X".
Proof.
  unfold resolve_layers. intros Hres.
  destruct (if decide (request = PyStr "all") then Ok [vkey; skey] else iterate request)
    as [candidates|e]; [|done].
  simpl in Hres. injection Hres as <-. rewrite list_elem_of_filter. tauto.
Qed.

(** *** Grid cells *)










(** *** Which exception, and when *)


Lemma keeps_lift (R : Figure num → Figure num → Prop) {A} (r : result A) :
  Reflexive R → keeps R (lift r).
Proof. intros Hrefl fig fig' r' [= <- _]. apply Hrefl. Qed.

Lemma keeps_ret (R : Figure num → Figure num → Prop) {A} (x : A) :
  Reflexive R → keeps R (mret x).
Proof. intros Hrefl fig fig' r' [= <- _]. apply Hrefl. Qed.

Lemma keeps_bind (R : Figure num → Figure num → Prop) {A B} (m : M A) (f : A → M B) :
  Transitive R → keeps R m → (∀ x, keeps R (f x)) → keeps R (m ≫= f).
Proof.
  intros Htrans Hm Hf fig fig' r. unfold mbind, M_bind.
  destruct (m fig) as [fig1 [x|e]] eqn:Hrun.
  - intros Hrest. etrans; [by eapply Hm | by eapply Hf].
  - intros [= <- _]. by eapply Hm.
Qed.

Lemma keeps_for_enumerate (R : Figure num → Figure num → Prop) {A}
    (body : nat → A → M unit) (i : nat) (l : list A) :
  Reflexive R → Transitive R →
  (∀ i x, x ∈ l → keeps R (body i x)) → keeps R (for_enumerate body i l).
Proof.
  intros Hrefl Htrans. revert i. induction l as [|x l IH]; intros i Hbody.
  - by apply keeps_ret.
  - simpl. apply keeps_bind; [done| |].
    + apply Hbody. by left.
    + intros _. apply IH. intros j y Hy. apply Hbody. by right.
Qed.

(** The axes that are current and the grid do not matter to a relation on
    the keywords and the drawing. *)
Lemma keeps_subplot (R : Figure num → Figure num → Prop) (k : Z) :
  Reflexive R →
  (∀ fig g, R fig {| gs := gs fig; gca := g; kwargs := kwargs fig; drawn := drawn fig |}) →
  keeps R (subplot k).
Proof.
  intros Hrefl Hgca fig fig' r. unfold subplot. cbv zeta.
  destruct (decide _); intros [= <- _]; [apply Hgca | apply Hrefl].
Qed.

(** *** The keywords that collide stay the same *)

#[local] Instance same_collisions_refl (explicit : list string) :
  Reflexive (same_collisions (num := num) explicit).
Proof. by intros fig. Qed.

#[local] Instance same_collisions_trans (explicit : list string) :
  Transitive (same_collisions (num := num) explicit).
Proof. unfold same_collisions. intros f1 f2 f3 H12 H23. by rewrite H23. Qed.



(** *** The exceptions of the loop *)









(** *** What is never drawn *)

#[local] Instance only_draws_refl (Q : Event num → Prop) : Reflexive (only_draws Q).
Proof. intros fig. exists []. by rewrite app_nil_r. Qed.

#[local] Instance only_draws_trans (Q : Event num → Prop) : Transitive (only_draws Q).
Proof.
  intros f1 f2 f3 (new1 & H1 & HQ1) (new2 & H2 & HQ2). exists (new1 ++ new2).
  split; [by rewrite H2, H1, app_assoc | by apply Forall_app].
Qed.

Lemma keeps_only_draws_subplot (Q : Event num → Prop) (k : Z) :
  keeps (only_draws Q) (subplot k).
Proof.
  apply keeps_subplot; [apply _|]. intros fig g. exists []. by rewrite app_nil_r.
Qed.

Lemma keeps_only_draws_set_kwargs (Q : Event num → Prop) (f : Kwargs → Kwargs) :
  keeps (only_draws Q) (λ fig, set_kwargs (f (kwargs fig)) fig).
Proof. intros fig fig' r [= <- _]. exists []. by rewrite app_nil_r. Qed.

Lemma keeps_only_draws_scatter (Q : Event num → Prop) (explicit : list string)
    (e : Kwargs → Event num) :
  (∀ kw, Q (e kw)) → keeps (only_draws Q) (scatter explicit e).
Proof.
  intros He fig fig' r. unfold scatter, draw.
  destruct (collides explicit (kwargs fig)); intros [= <- _].
  - exists []. by rewrite app_nil_r.
  - exists [e (kwargs fig)]. split; [done|]. by repeat constructor.
Qed.

Lemma keeps_only_draws_plot (Q : Event num → Prop) (x y : list num) :
  (∀ ax, Q (DashedLine ax x y)) → keeps (only_draws Q) (plot x y).
Proof.
  intros He fig fig' r [= <- _]. exists [DashedLine (gca fig) x y].
  split; [done|]. by repeat constructor.
Qed.

Lemma keeps_panels_gene_panels (genes : list string)
    (adata : AnnData.t num) (a : Args.t) (skey ukey : string)
    (layers fits stochastic_fits : list string) (P : Z) (n_var v : nat) (var : string) :
  var ∈ genes →
  keeps (only_draws (panel_of genes layers))
    (gene_panels second_order_moments adata a skey ukey layers fits stochastic_fits
       P n_var v var).
Proof.
  intros Hvar. unfold gene_panels.
  apply keeps_bind; [apply _ | apply keeps_lift, _ | intros _].
  apply keeps_bind; [apply _ | apply keeps_lift, _ | intros s].
  apply keeps_bind; [apply _ | apply keeps_lift, _ | intros u].
  apply keeps_bind; [apply _ | apply keeps_only_draws_subplot | intros ax].
  apply keeps_bind; [apply _ | apply keeps_only_draws_set_kwargs | intros _].
  apply keeps_bind; [apply _ | by apply keeps_only_draws_scatter | intros _].
  apply keeps_bind; [apply _ | | intros _].
  { unfold layer_panels. apply keeps_for_enumerate; [apply _ | apply _ |].
    intros l layer Hlayer.
    apply keeps_bind; [apply _ | apply keeps_only_draws_subplot | intros ax'].
    by apply keeps_only_draws_scatter. }
  destruct (is_stochastic (Args.mode a)); [|apply keeps_ret, _].
  unfold stochastic_panel. destruct (second_order_moments adata var) as [ss us].
  apply keeps_bind; [apply _ | apply keeps_lift, _ | intros fit].
  apply keeps_bind; [apply _ | apply keeps_only_draws_subplot | intros ax'].
  apply keeps_bind; [apply _ | apply keeps_lift, _ | intros y].
  apply keeps_bind; [apply _ | apply keeps_only_draws_set_kwargs | intros _].
  apply keeps_bind; [apply _ | by apply keeps_only_draws_scatter | intros _].
  apply keeps_bind; [apply _ | apply keeps_lift, _ | intros lo].
  apply keeps_bind; [apply _ | apply keeps_lift, _ | intros hi].
  apply keeps_for_enumerate; [apply _ | apply _ |].
  intros i fit' _. by apply keeps_only_draws_plot.
Qed.

Lemma bind_inv {A B} (m : M A) (f : A → M B) (fig fig' : Figure num) (r : result B) :
  (m ≫= f) fig = (fig', r) →
  (∃ e, m fig = (fig', Raise e))
  ∨ ∃ x fig1, m fig = (fig1, Ok x) ∧ f x fig1 = (fig', r).
Proof.
  unfold mbind, M_bind. destruct (m fig) as [fig1 [x|e]]; intros Hrun.
  - right. by exists x, fig1.
  - left. exists e. by injection Hrun as -> _.
Qed.

(** No call, whether it returns or raises, asks [scatter] for a layer that
    the dataset does not have (lines 92 and 134): the layer of every layer
    panel that was drawn is a key of [adata.layers] or 'X', it is one of
    the requested layers, and the panel's gene is a selected gene. *)
Theorem no_panel_for_missing_layer (adata : AnnData.t num) (a : Args.t)
    (fig : Figure num) (r : result unit) :
  velocity rank_velocity_genes second_order_moments adata a = (fig, r) →
  ∀ ax var layer title kw,
    Embedding ax var layer title kw ∈ drawn fig →
    (layer ∈ layer_keys adata ∨ layer = "X")
    ∧ (∃ var_names,
         select_var_names rank_velocity_genes adata (Args.vkey a) (Args.var_names a)
           (Args.groupby a) (Args.groups a) = Ok var_names
         ∧ var ∈ var_names)
    ∧ (∃ layers,
         resolve_layers adata (Args.vkey a) (abundance_keys adata (Args.use_raw a)).1
           (Args.layers a) = Ok layers
         ∧ layer ∈ layers).
Proof.
  unfold velocity, velocity_stmts. intros Hcall ax var layer title kw Hin.
  apply bind_inv in Hcall as [[e Hsel]|(var_names & fig1 & Hsel & Hcall)].
  { unfold lift in Hsel. injection Hsel as <- _. by apply elem_of_nil in Hin. }
  unfold lift in Hsel. injection Hsel as <- Hsel.
  destruct (abundance_keys adata (Args.use_raw a)) as [skey ukey] eqn:Hkeys.
  apply bind_inv in Hcall as [[e Hlayers]|(layers & fig2 & Hlayers & Hcall)].
  { unfold lift in Hlayers. injection Hlayers as <- _. by apply elem_of_nil in Hin. }
  unfold lift in Hlayers. injection Hlayers as <- Hlayers.
  apply bind_inv in Hcall as [[e Hfits]|(fits & fig3 & Hfits & Hcall)].
  { unfold lift in Hfits. injection Hfits as <- _. by apply elem_of_nil in Hin. }
  unfold lift in Hfits. injection Hfits as <- Hfits.
  apply bind_inv in Hcall as [[e Hgrid]|([nrows ncols] & fig4 & Hgrid & Hcall)].
  { unfold lift in Hgrid. injection Hgrid as <- _. by apply elem_of_nil in Hin. }
  unfold lift in Hgrid. injection Hgrid as <- _.
  apply bind_inv in Hcall as [[e Hfigure]|(? & fig5 & Hfigure & Hcall)].
  { unfold figure in Hfigure. destruct (decide _); [|done].
    injection Hfigure as <- _. by apply elem_of_nil in Hin. }
  unfold figure in Hfigure. destruct (decide _); [done|]. injection Hfigure as <- _.
  apply bind_inv in Hcall as [[e Hgs]|(? & fig6 & Hgs & Hcall)].
  { unfold GridSpec in Hgs.
    repeat destruct (decide _); try done; injection Hgs as <- _;
      by apply elem_of_nil in Hin. }
  unfold GridSpec in Hgs. repeat destruct (decide _); try done. injection Hgs as <-.
  assert (only_draws (panel_of var_names layers)
            {| gs := (nrows, ncols); gca := None;
               kwargs := pop_colors (Args.kwargs a); drawn := [] |} fig)
    as (new & Hdrawn & Hnew).
  { eapply keeps_for_enumerate; [apply _ | apply _ | | exact Hcall].
    intros v var' Hvar'. by apply keeps_panels_gene_panels. }
  rewrite Hdrawn in Hin. simpl in Hin.
  eapply Forall_forall in Hnew; [|exact Hin]. destruct Hnew as [Hvar Hlayer].
  split; [by eapply resolve_layers_elem_of|].
  split; [by exists var_names | by exists layers].
Qed.

(** ** The axes left current *)






End MoreCall.

(** * Concrete runs of the further properties *)

(** [layers='velocity'] selects no layer panel, [layers='X'] the one of X. *)
Lemma layers_string_by_character_witness :
  resolve_layers abc_adata "velocity" "spliced" (PyStr "velocity") = Ok []
  ∧ resolve_layers abc_adata "velocity" "spliced" (PyStr "X") = Ok ["X"].
Proof.
  assert (∀ key, key ∈ layer_keys abc_adata → String.length key ≠ 1%nat) as Hkeys.
  { apply Forall_forall. by apply (bool_decide_unpack _). }
  split.
  - exact (layers_string_by_character abc_adata "velocity" "spliced" "velocity"
             ltac:(discriminate) Hkeys).
  - exact (layers_string_by_character abc_adata "velocity" "spliced" "X"
             ltac:(discriminate) Hkeys).
Defined.

(** [fits='velocity'] on a dataset without parameter columns. *)
Lemma fits_string_by_character_witness :
  resolve_fits bare_adata (PyStr "velocity") = Ok ["dynamics"].
Proof.
  apply fits_string_by_character; [discriminate|].
  intros c _ [column Hcolumn].
  change (AnnData.var bare_adata) with (∅ : gmap string (string → Q)) in Hcolumn.
  by rewrite lookup_empty in Hcolumn.
Defined.

(** The default fits on the dataset with a stochastic and a dynamical fit. *)
Lemma resolved_fits_have_parameters_witness :
  Forall (λ fit, fit = "dynamics" ∨ in_var_keys stochastic_adata (fit +:+ "_gamma"))
    ["velocity"; "dynamics"; "dynamics"]
  ∧ stochastic_fits stochastic_adata ["velocity"; "dynamics"; "dynamics"]
    `sublist_of` ["velocity"; "dynamics"; "dynamics"].
Proof.
  destruct (resolved_fits_have_parameters stochastic_adata (Args.fits Args.default)
              ["velocity"; "dynamics"; "dynamics"] eq_refl)
    as (Hgamma & _ & Hsub & _).
  by split.
Defined.

(** Twelve groups, all of them matching the token "g". *)
Lemma many_matching_groups_select_nothing_witness :
  select_var_names wide_rank twelve_groups_adata "velocity" PyNone
    (PyStr "clusters") (PyStr "g") = Ok [].
Proof.
  apply (many_matching_groups_select_nothing wide_rank twelve_groups_adata
           "velocity" "clusters" PyNone (PyStr "g") twelve eq_refl);
    [discriminate | reflexivity | vm_compute; lia].
Defined.

Lemma selection_duplicate_free_witness :
  NoDup ["B"; "A"] ∧ ["B"; "A"] `sublist_of` ["B"; "B"; "D"; "A"].
Proof.
  destruct (selection_duplicate_free demo_rank abc_adata "velocity"
              (PyList ["B"; "B"; "D"; "A"]) PyNone PyNone ["B"; "A"] eq_refl)
    as [Hnodup Hlist].
  split; [exact Hnodup|]. exact (proj1 (Hlist _ eq_refl eq_refl)).
Defined.

(** With a ranking cached for "clusters" the selection is the cached one,
    whichever collaborator stands behind the call. *)
Lemma ranking_only_when_needed_witness :
  select_var_names demo_rank cached_adata "velocity" PyNone (PyStr "clusters") PyNone
  = select_var_names wide_rank cached_adata "velocity" PyNone (PyStr "clusters") PyNone.
Proof.
  apply ranking_only_when_needed. right.
  by exists "clusters", {| rank_groupby := "clusters";
                           rank_names := [["C"; "A"]; ["A"; "B"]; ["C"; "B"]] |}.
Defined.

Lemma groupby_overrides_var_names_witness :
  velocity demo_rank demo_moments stochastic_adata
    (with_var_names (PyList ["F"]) (call_groups (PyStr "clusters") PyNone))
  = velocity demo_rank demo_moments stochastic_adata (call_groups (PyStr "clusters") PyNone).
Proof.
  apply groupby_overrides_var_names. by eexists.
Defined.

Lemma moments_only_in_stochastic_mode_witness :
  velocity demo_rank demo_moments abc_adata (call (PyList ["A"; "B"]) PyNone None)
  = velocity demo_rank (λ _ _, (λ _, 7%Q, λ _, 9%Q)) abc_adata
      (call (PyList ["A"; "B"]) PyNone None).
Proof. by apply moments_only_in_stochastic_mode. Defined.

(** Two names that are not genes of the dataset. *)
Lemma empty_selection_draws_nothing_witness :
  ∃ fig msg,
    velocity demo_rank demo_moments abc_adata (call (PyList ["D"; "E"]) PyNone None)
    = (fig, Raise (ValueError msg))
    ∧ gca fig = None
    ∧ drawn fig = [].
Proof.
  exact (empty_selection_draws_nothing demo_rank demo_moments abc_adata
           (call (PyList ["D"; "E"]) PyNone None)
           ["velocity"; "spliced"] ["velocity"; "dynamics"; "dynamics"]
           eq_refl eq_refl eq_refl ltac:(discriminate)).
Defined.

Lemma zero_ncols_raises_witness :
  velocity demo_rank demo_moments abc_adata (call (PyList ["A"]) PyNone (Some 0))
  = (blank (Args.kwargs Args.default), Raise ZeroDivisionError).
Proof.
  exact (zero_ncols_raises demo_rank demo_moments abc_adata
           (call (PyList ["A"]) PyNone (Some 0))
           ["A"] ["velocity"; "spliced"] ["velocity"; "dynamics"; "dynamics"]
           eq_refl eq_refl eq_refl eq_refl).
Defined.

Lemma absent_gene_string_raises_witness :
  ∃ fig,
    velocity demo_rank demo_moments abc_adata (call (PyStr "D") PyNone None)
    = (fig, Raise (KeyError "D"))
    ∧ drawn fig = [].
Proof.
  apply (absent_gene_string_raises demo_rank demo_moments abc_adata
           (call (PyStr "D") PyNone None) "D"
           ["velocity"; "spliced"] ["velocity"; "dynamics"; "dynamics"]
           eq_refl eq_refl);
    [by apply (bool_decide_unpack _) | reflexivity | reflexivity | discriminate].
Defined.

(** Smoothed [Ms] without [Mu]: the call reads the smoothed pair and fails
    on the second layer. *)
Lemma missing_abundance_layer_raises_witness :
  ∃ fig,
    velocity demo_rank demo_moments half_smoothed_adata (call (PyList ["A"]) PyNone None)
    = (fig, Raise (KeyError "Mu"))
    ∧ drawn fig = [].
Proof.
  destruct (missing_abundance_layer_raises demo_rank demo_moments half_smoothed_adata
              (call (PyList ["A"]) PyNone None) "A" [] ["velocity"; "Ms"]
              ["dynamics"; "dynamics"]
              eq_refl eq_refl eq_refl ltac:(discriminate)
              ltac:(by apply (bool_decide_unpack _)))
    as (_ & _ & Hsecond).
  apply Hsecond; by apply (bool_decide_unpack _).
Defined.





(** The stochastic call without a stochastic-capable fit ends in
    [IndexError] after three panels; the layer panel of 'velocity' that it
    drew before shows a layer of the dataset, for a gene and a layer that
    were asked for. *)
Lemma no_panel_for_missing_layer_witness :
  Embedding 1 "A" "velocity" "velocity" {["xlabel" := "spliced"; "ylabel" := "unspliced"]}
  ∈ drawn (velocity demo_rank demo_moments abc_adata
             (call (PyList ["A"]) (PyStr "stochastic") None)).1
  ∧ (velocity demo_rank demo_moments abc_adata
       (call (PyList ["A"]) (PyStr "stochastic") None)).2 = Raise IndexError
  ∧ ("velocity" ∈ layer_keys abc_adata ∨ "velocity" = "X")
  ∧ (∃ var_names,
       select_var_names demo_rank abc_adata "velocity" (PyList ["A"]) PyNone PyNone
       = Ok var_names
       ∧ "A" ∈ var_names)
  ∧ (∃ layers,
       resolve_layers abc_adata "velocity" "spliced" (PyStr "all") = Ok layers
       ∧ "velocity" ∈ layers).
Proof.
  assert (Hin : Embedding 1 "A" "velocity" "velocity"
                  {["xlabel" := "spliced"; "ylabel" := "unspliced"]}
                ∈ drawn (velocity demo_rank demo_moments abc_adata
                           (call (PyList ["A"]) (PyStr "stochastic") None)).1).
  { apply (list_elem_of_lookup_2 _ 1%nat). reflexivity. }
  split; [exact Hin|]. split; [reflexivity|].
  exact (no_panel_for_missing_layer demo_rank demo_moments abc_adata
           (call (PyList ["A"]) (PyStr "stochastic") None) _ _
           (surjective_pairing _) 1 "A" "velocity" "velocity" _ Hin).
Defined.






